(** * The metadata cache of yt_app: [src/lib/utils/info_cache.py]

    A shallow embedding of the cache manager ([InfoManager]) and of the
    record store under it: the cache directory, the in-memory recency index,
    the atomic write, the JSON (de)serialisation of a record, stale-artifact
    cleanup, cropping, and lookup-or-fetch.

    Conventions of the embedding.
    - The cache directory is a listing: [list (string * node)], in the order
      [iterdir]/[glob] yields it.  The directory itself exists (it is created
      by [resolve_cache_paths]); names are flat (an id holds no path
      separator).
    - Modification times and the clock are integers (ticks).
    - A Python exception is a value of [exn]; a method of [InfoManager] is a
      function [state -> result A * state]: a raise keeps every mutation made
      before it, as in Python.
    - The [json] module, [extract_video_id], the yt-dlp provider and the
      fields of [YtdlpMetadata] beyond the three the cache reads are not part
      of this repository: they are parameters of the development.
    - Fields follow their declared types: [video_id], [url] and [title] are
      strings.  Python would build a record from a document that holds
      something else there; the embedding reports it with [TypeError_field],
      which no statement counts as corruption or as an [OSError].
    - Text is text: a file always decodes as UTF-8.  [unlink] and [touch]
      succeed on a listed file.
    - Logging is not modelled. *)

From Stdlib Require Import String Ascii List ZArith Bool Lia Arith DecimalString.
Import ListNotations.
Open Scope string_scope.
Open Scope list_scope.
Open Scope Z_scope.

Set Implicit Arguments.

(** ** Strings *)

(** [s.endswith(suf)] *)
Fixpoint ends_with (suf s : string) : bool :=
  (s =? suf)%string ||
  match s with
  | EmptyString => false
  | String _ s' => ends_with suf s'
  end.

(** [s.startswith(pre)] *)
Definition starts_with (pre s : string) : bool := String.prefix pre s.

(** ** JSON values, as [json.loads] builds them and [json.dumps] reads them.
    Numbers are the integers; a Python dict is the list of its items, in
    insertion order. *)
#[warnings="-register-all"] Inductive json : Type :=
| JNull
| JBool (b : bool)
| JNum (n : Z)
| JStr (s : string)
| JArr (l : list json)
| JObj (items : list (string * json)).

(** [d.get(k)]: the value a dict holds under a key. *)
Fixpoint assoc {V : Type} (k : string) (d : list (string * V)) : option V :=
  match d with
  | [] => None
  | (k', v) :: d' => if (k' =? k)%string then Some v else assoc k d'
  end.

(** ** Exceptions *)
Inductive exn : Type :=
| JSONDecodeError                      (* json.loads: invalid document (a ValueError) *)
| ValueError_not_object                (* "Expected JSON object for VideoMetadata." *)
| TypeError_missing (field : string)   (* dataclass __init__: required argument missing *)
| TypeError_unexpected (key : string)  (* dataclass __init__: unexpected keyword argument *)
| TypeError_field (field : string)     (* a field holds a value outside its declared type *)
| KeyError (key : string)
| ValueError_no_video_id (url : string)          (* "URL does not contain a Video Id." *)
| ValueError_unresolvable (vid url : string)     (* "Could not extract video_id from ..." *)
| ValueError_negative                  (* "num_entries must be >= 0" *)
| OSError (what : string)              (* PermissionError, FileExistsError, IsADirectoryError ... *)
| ProviderError (msg : string).        (* whatever yt-dlp raises *)

(** [isinstance(e, OSError)] *)
Definition is_OSError (e : exn) : bool :=
  match e with OSError _ => true | _ => false end.

(** The spec's error classes, read off the exceptions of the code. *)
Definition is_CorruptRecord (e : exn) : bool :=
  match e with
  | JSONDecodeError | ValueError_not_object | TypeError_missing _ => true
  | _ => false
  end.

Definition is_InvalidReference (e : exn) : bool :=
  match e with ValueError_no_video_id _ => true | _ => false end.

Inductive result (A : Type) : Type :=
| Ok (a : A)
| Raise (e : exn).
Arguments Ok {A} a.
Arguments Raise {A} e.

(** ** The cache directory *)
Inductive node : Type :=
| File (content : string) (mtime : Z) (readable : bool)
| Dir (mtime : Z).

Definition directory := list (string * node).

(** [p.is_file()] for an entry of the listing *)
Definition is_file (nd : node) : bool :=
  match nd with File _ _ _ => true | Dir _ => false end.

(** [(cache_dir / name).is_file()] *)
Definition path_is_file (name : string) (d : directory) : bool :=
  match assoc name d with Some nd => is_file nd | None => false end.

(** [p.stat().st_mtime] *)
Definition stat_mtime (name : string) (d : directory) : result Z :=
  match assoc name d with
  | Some (File _ mt _) => Ok mt
  | Some (Dir mt) => Ok mt
  | None => Raise (OSError "FileNotFoundError")
  end.

(** [p.read_text(encoding="utf-8")] *)
Definition read_text (nd : node) : result string :=
  match nd with
  | File c _ true => Ok c
  | File _ _ false => Raise (OSError "PermissionError")
  | Dir _ => Raise (OSError "IsADirectoryError")
  end.

(** [p.touch()]: the modification time becomes the current time. *)
Fixpoint touch (name : string) (now : Z) (d : directory) : directory :=
  match d with
  | [] => []
  | (n, nd) :: d' =>
      if (n =? name)%string
      then (n, match nd with File c _ r => File c now r | Dir _ => Dir now end) :: d'
      else (n, nd) :: touch name now d'
  end.

(** Put a node under a name: in place when the name is listed, at the end
    of the listing otherwise. *)
Fixpoint upsert (name : string) (nd : node) (d : directory) : directory :=
  match d with
  | [] => [(name, nd)]
  | (n, x) :: d' =>
      if (n =? name)%string then (n, nd) :: d' else (n, x) :: upsert name nd d'
  end.

(** Drop a name from the listing. *)
Definition remove (name : string) (d : directory) : directory :=
  filter (fun e => negb (fst e =? name)%string) d.

(** ** Records *)

(** [YoutubeIdKind] (yt_lib): the cache only ever builds [VIDEO]. *)
Inductive YoutubeIdKind : Type := VIDEO.

(** The index entry's payload, [class YouTubeSource] (frozen dataclass). *)
Module YouTubeSource.
Record t : Type := make { kind : YoutubeIdKind; id : string; url : string; title : string }.
End YouTubeSource.

(** What the prompt shows for a cached video, [class PromptChoice]. *)
Module PromptChoice.
Record t : Type := make { title : string; url : string }.
End PromptChoice.

(** Modelled from the spec: the declaration of [YtdlpMetadata] (a dataclass
    of yt_lib) is missing.  The cache reads [video_id], [url] and [title]
    (declared [str] in [YouTubeSource]); the spec's "open set of additional
    informational fields" is [extras], one value per further declared
    field. *)
Module YtdlpMetadata.
Record t : Type := make {
  video_id : string;
  url : string;
  title : string;
  extras : list (string * json)
}.

(** [dataclasses.asdict(meta)] *)
Definition asdict (m : t) : list (string * json) :=
  ("video_id", JStr (video_id m)) :: ("url", JStr (url m))
    :: ("title", JStr (title m)) :: extras m.

(** [meta.video_id = v] (the dataclass is not frozen) *)
Definition set_video_id (v : string) (m : t) : t :=
  make v (url m) (title m) (extras m).
End YtdlpMetadata.

(** ** The state: the world the manager runs in, and the manager's index *)
Record state : Type := mkState {
  cache_dir : directory;          (* the files under [self.cache_dir] *)
  now : Z;                        (* the clock *)
  tmp_pool : list string;         (* the names [tempfile] draws, in order *)
  provider_log : list string;     (* urls handed to yt-dlp, oldest first *)
  yt_source_list : list (Z * YouTubeSource.t)   (* [self.yt_source_list] *)
}.

Definition set_dir (d : directory) (s : state) : state :=
  mkState d (now s) (tmp_pool s) (provider_log s) (yt_source_list s).
Definition set_index (ix : list (Z * YouTubeSource.t)) (s : state) : state :=
  mkState (cache_dir s) (now s) (tmp_pool s) (provider_log s) ix.
Definition set_now (t : Z) (s : state) : state :=
  mkState (cache_dir s) t (tmp_pool s) (provider_log s) (yt_source_list s).
Definition log_call (u : string) (s : state) : state :=
  mkState (cache_dir s) (now s) (tmp_pool s) (provider_log s ++ [u]) (yt_source_list s).

(** ** Methods as state transformers that may raise *)
Definition M (A : Type) : Type := state -> result A * state.

Definition ret {A} (a : A) : M A := fun s => (Ok a, s).
Definition raise {A} (e : exn) : M A := fun s => (Raise e, s).
Definition bind {A B} (m : M A) (k : A -> M B) : M B :=
  fun s => match m s with
           | (Ok a, s') => k a s'
           | (Raise e, s') => (Raise e, s')
           end.
(** [try: m  except <class> as e: h e], the class given by [handles] *)
Definition try_except {A} (m : M A) (handles : exn -> bool) (h : exn -> M A) : M A :=
  fun s => match m s with
           | (Ok a, s') => (Ok a, s')
           | (Raise e, s') => if handles e then h e s' else (Raise e, s')
           end.
Definition lift {A} (r : result A) : M A := fun s => (r, s).
Definition get {A} (f : state -> A) : M A := fun s => (Ok (f s), s).
Definition modify (f : state -> state) : M unit := fun s => (Ok tt, f s).

Declare Scope py_scope.
Delimit Scope py_scope with py.
Notation "x <- m ;; k" := (bind m (fun x => k))
  (at level 61, m at next level, right associativity) : py_scope.
Notation "m ;; k" := (bind m (fun _ => k))
  (at level 61, right associativity) : py_scope.
Open Scope py_scope.

(** [except Exception] *)
Definition any_Exception (e : exn) : bool := true.

(** ** [_atomic_write_text] *)

(** What the function asks of the file system, one request at a time. *)
Inductive io_step : Type :=
| Create (tmp : string)                 (* NamedTemporaryFile(delete=False, dir=path.parent) *)
| Append (tmp : string) (chunk : string)      (* tf.write / tf.flush reaching the file *)
| Replace (src dst : string).           (* tmp.replace(path): one atomic rename *)

Definition run_step (t : Z) (st : io_step) (d : directory) : result directory :=
  match st with
  | Create tmp =>
      match assoc tmp d with
      | Some _ => Raise (OSError "FileExistsError")
      | None => Ok (d ++ [(tmp, File "" t true)])
      end
  | Append tmp chunk =>
      match assoc tmp d with
      | Some (File c _ r) => Ok (upsert tmp (File (c ++ chunk)%string t r) d)
      | Some (Dir _) => Raise (OSError "IsADirectoryError")
      | None => Raise (OSError "FileNotFoundError")
      end
  | Replace src dst =>
      match assoc src d with
      | None => Raise (OSError "FileNotFoundError")
      | Some nd =>
          if (src =? dst)%string then Ok d
          else match assoc dst d with
               | Some (Dir _) => Raise (OSError "IsADirectoryError")
               | _ => Ok (upsert dst nd (remove src d))
               end
      end
  end.

(** Run requests in order; a failing request leaves the directory as the
    requests before it made it. *)
Fixpoint run_steps (t : Z) (steps : list io_step) (d : directory) : result unit * directory :=
  match steps with
  | [] => (Ok tt, d)
  | st :: rest =>
      match run_step t st d with
      | Ok d' => run_steps t rest d'
      | Raise e => (Raise e, d)
      end
  end.

(** The text reaches the temporary file piece by piece (here: a character at
    a time, so that every prefix is an observable content). *)
Definition write_chunks (tmp text : string) : list io_step :=
  map (fun c => Append tmp (String c EmptyString)) (list_ascii_of_string text).

Definition atomic_write_steps (tmp name text : string) : list io_step :=
  Create tmp :: write_chunks tmp text ++ [Replace tmp name].

(** [tempfile] tries the names it draws until one is free. *)
Definition pick_tmp (pool : list string) (d : directory) : option string :=
  find (fun c => match assoc c d with Some _ => false | None => true end) pool.

(** [path.parent.mkdir(parents=True, exist_ok=True)] finds the cache
    directory in place; then the requests above are made in order. *)
Definition _atomic_write_text (name text : string) : M unit :=
  fun s =>
    match pick_tmp (tmp_pool s) (cache_dir s) with
    | None => (Raise (OSError "FileExistsError"), s)
    | Some tmp =>
        let (r, d') := run_steps (now s) (atomic_write_steps tmp name text) (cache_dir s) in
        (r, set_dir d' s)
    end.


(** ** Sorting: [list.sort(key=lambda t: t[0], reverse=True)]

    Python's sort is stable, also with [reverse=True]: entries of equal
    mtime keep their order. *)
Fixpoint insert_desc {A} (x : Z * A) (l : list (Z * A)) : list (Z * A) :=
  match l with
  | [] => [x]
  | y :: l' => if fst x <? fst y then y :: insert_desc x l' else x :: y :: l'
  end.

Definition sort_desc {A} (l : list (Z * A)) : list (Z * A) :=
  fold_right insert_desc [] l.

(** Newest first: each entry is at least as recent as the next. *)
Fixpoint newest_first {A} (l : list (Z * A)) : Prop :=
  match l with
  | [] => True
  | x :: l' =>
      match l' with [] => True | y :: _ => fst y <= fst x end /\ newest_first l'
  end.

(** ** The value bound to [video_id] in [cache_VideoMetadata]

    [if video_id := extract_video_id(vid) != vid:] binds the *comparison*
    (a bool) to [video_id]; the inner walrus rebinds it to a string.  Both
    reach [remove_stale_files_for_video_id]. *)
Inductive pyval : Type :=
| PyBool (b : bool)
| PyStr (s : string).

(** [f"{v}"] *)
Definition py_format (v : pyval) : string :=
  match v with
  | PyBool true => "True"
  | PyBool false => "False"
  | PyStr s => s
  end.

(** [s != v] for a string [s]: a string never equals a bool. *)
Definition str_ne (s : string) (v : pyval) : bool :=
  match v with
  | PyStr t => negb (s =? t)%string
  | PyBool _ => true
  end.

(** Truthiness of an [Optional[str]]: [None] and [""] are false. *)
Definition truthy (o : option string) : option string :=
  match o with
  | Some EmptyString => None
  | Some s => Some s
  | None => None
  end.

(** [InfoManager.info_path_for]: the file name under the cache directory. *)
Definition info_path_for (video_id : string) : string := (video_id ++ ".info")%string.

(** ** Reference instances of the imported functions

    Closed examples need the imports instantiated.  [MiniJson] reads and
    prints a subset of JSON (no escapes in strings, integers only);
    [Fixture] holds a resolver and a provider in the style of the real ones.
    No general statement below depends on them. *)
Module MiniJson.

Definition dquote : ascii := "034"%char.

Definition quoted (s : string) : string :=
  String dquote (s ++ String dquote EmptyString)%string.

Fixpoint dumps (j : json) : string :=
  match j with
  | JNull => "null"
  | JBool true => "true"
  | JBool false => "false"
  | JNum n => DecimalString.NilZero.string_of_int (Z.to_int n)
  | JStr s => quoted s
  | JArr l =>
      let fix elems (l : list json) : string :=
        match l with
        | [] => ""
        | [x] => dumps x
        | x :: r => (dumps x ++ ", " ++ elems r)%string
        end in
      ("[" ++ elems l ++ "]")%string
  | JObj items =>
      let fix members (l : list (string * json)) : string :=
        match l with
        | [] => ""
        | [(k, v)] => (quoted k ++ ": " ++ dumps v)%string
        | (k, v) :: r => (quoted k ++ ": " ++ dumps v ++ ", " ++ members r)%string
        end in
      ("{" ++ members items ++ "}")%string
  end.

Local Open Scope char_scope.

Definition is_ws (c : ascii) : bool :=
  (c =? " ")%char || (c =? "010")%char || (c =? "009")%char || (c =? "013")%char.

Fixpoint skip_ws (cs : list ascii) : list ascii :=
  match cs with
  | c :: r => if is_ws c then skip_ws r else cs
  | [] => []
  end.

(** The characters up to the closing quote. *)
Fixpoint take_string (cs : list ascii) : option (string * list ascii) :=
  match cs with
  | [] => None
  | c :: r =>
      if (c =? dquote)%char then Some (EmptyString, r)
      else if (c =? "\")%char then None
      else match take_string r with
           | Some (s, r') => Some (String c s, r')
           | None => None
           end
  end.

Definition digit (c : ascii) : option Z :=
  let n := Z.of_nat (nat_of_ascii c) in
  if ((48 <=? n) && (n <=? 57))%Z then Some (n - 48)%Z else None.

Fixpoint take_digits (cs : list ascii) (acc : Z) : Z * list ascii :=
  match cs with
  | c :: r => match digit c with
              | Some k => take_digits r (10 * acc + k)
              | None => (acc, cs)
              end
  | [] => (acc, [])
  end.

Definition take_number (cs : list ascii) : option (json * list ascii) :=
  match cs with
  | c :: r =>
      if (c =? "-")%char then
        match r with
        | c' :: _ => match digit c' with
                     | Some _ => let (n, r') := take_digits r 0 in Some (JNum (- n), r')
                     | None => None
                     end
        | [] => None
        end
      else match digit c with
           | Some _ => let (n, r') := take_digits cs 0 in Some (JNum n, r')
           | None => None
           end
  | [] => None
  end.

Fixpoint value (fuel : nat) (cs : list ascii) {struct fuel} : option (json * list ascii) :=
  match fuel with
  | O => None
  | S n =>
      match skip_ws cs with
      | "n" :: "u" :: "l" :: "l" :: r => Some (JNull, r)
      | "t" :: "r" :: "u" :: "e" :: r => Some (JBool true, r)
      | "f" :: "a" :: "l" :: "s" :: "e" :: r => Some (JBool false, r)
      | "[" :: r =>
          match skip_ws r with
          | "]" :: r' => Some (JArr [], r')
          | _ => match value n r with
                 | Some (v, r1) =>
                     match more_elems n r1 with
                     | Some (vs, r2) => Some (JArr (v :: vs), r2)
                     | None => None
                     end
                 | None => None
                 end
          end
      | "{" :: r =>
          match skip_ws r with
          | "}" :: r' => Some (JObj [], r')
          | _ => match member n r with
                 | Some (kv, r1) =>
                     match more_members n r1 with
                     | Some (kvs, r2) => Some (JObj (kv :: kvs), r2)
                     | None => None
                     end
                 | None => None
                 end
          end
      | c :: r =>
          if (c =? dquote)%char then
            match take_string r with
            | Some (s, r') => Some (JStr s, r')
            | None => None
            end
          else take_number (c :: r)
      | [] => None
      end
  end
with more_elems (fuel : nat) (cs : list ascii) {struct fuel} : option (list json * list ascii) :=
  match fuel with
  | O => None
  | S n =>
      match skip_ws cs with
      | "]" :: r => Some ([], r)
      | "," :: r =>
          match value n r with
          | Some (v, r1) =>
              match more_elems n r1 with
              | Some (vs, r2) => Some (v :: vs, r2)
              | None => None
              end
          | None => None
          end
      | _ => None
      end
  end
with member (fuel : nat) (cs : list ascii) {struct fuel} : option ((string * json) * list ascii) :=
  match fuel with
  | O => None
  | S n =>
      match skip_ws cs with
      | c :: r =>
          if (c =? dquote)%char then
            match take_string r with
            | Some (k, r1) =>
                match skip_ws r1 with
                | ":" :: r2 =>
                    match value n r2 with
                    | Some (v, r3) => Some ((k, v), r3)
                    | None => None
                    end
                | _ => None
                end
            | None => None
            end
          else None
      | [] => None
      end
  end
with more_members (fuel : nat) (cs : list ascii) {struct fuel}
  : option (list (string * json) * list ascii) :=
  match fuel with
  | O => None
  | S n =>
      match skip_ws cs with
      | "}" :: r => Some ([], r)
      | "," :: r =>
          match member n r with
          | Some (kv, r1) =>
              match more_members n r1 with
              | Some (kvs, r2) => Some (kv :: kvs, r2)
              | None => None
              end
          | None => None
          end
      | _ => None
      end
  end.

Definition loads (text : string) : option json :=
  match value (S (String.length text)) (list_ascii_of_string text) with
  | Some (j, rest) => match skip_ws rest with [] => Some j | _ => None end
  | None => None
  end.

End MiniJson.

Module Fixture.

(** A resolver: ["https://youtu.be/<id>"] and a bare ["<id>"] give
    [<id>]; anything else with a slash, and the empty string, give
    nothing. *)
Definition extract_video_id (s : string) : option string :=
  if String.prefix "https://youtu.be/" s then
    match String.substring 17 (String.length s - 17) s with
    | EmptyString => None
    | v => Some v
    end
  else match String.index 0 "/" s with
       | Some _ => None
       | None => match s with EmptyString => None | _ => Some s end
       end.

(** Fields declared besides the three: [description], with a default. *)
Definition extra_fields : list (string * option json) :=
  [("description", Some (JStr ""))].

Definition record (vid : string) : YtdlpMetadata.t :=
  YtdlpMetadata.make vid ("https://youtu.be/" ++ vid)%string ("Title of " ++ vid)%string
    [("description", JStr "none")].

(** A provider that knows every video the resolver accepts. *)
Definition provider (url : string) : result YtdlpMetadata.t :=
  match extract_video_id url with
  | Some v => Ok (record v)
  | None => Raise (ProviderError "unavailable")
  end.

(** The same record as a caller may hand it over: the reference in place
    of the id. *)
Definition record_by_url (vid : string) : YtdlpMetadata.t :=
  YtdlpMetadata.set_video_id ("https://youtu.be/" ++ vid)%string (record vid).

(** A record no id can be found for. *)
Definition nameless : YtdlpMetadata.t :=
  YtdlpMetadata.make "watch/later" "https://example.com/watch/later" "Untitled"
    [("description", JStr "none")].

(** A provider that cannot be reached. *)
Definition offline (url : string) : result YtdlpMetadata.t :=
  Raise (ProviderError "offline").

(** A document without a title. *)
Definition untitled : list (string * json) :=
  [("video_id", JStr "v1"); ("url", JStr "https://youtu.be/v1")].

Definition source (vid : string) : YouTubeSource.t :=
  YouTubeSource.make VIDEO vid ("https://youtu.be/" ++ vid)%string ("Title of " ++ vid)%string.

Definition text_of (vid : string) : string :=
  MiniJson.dumps (JObj (YtdlpMetadata.asdict (record vid))).

End Fixture.

Section InfoCache.

(** *** What the module imports *)

(** [yt_lib.yt_ids.extract_video_id] *)
Variable extract_video_id : string -> option string.
(** [json.dumps(d, ensure_ascii=False, indent=2)] and [json.loads] *)
Variable json_dumps : json -> string.
Variable json_loads : string -> option json.
(** The fields [YtdlpMetadata] declares besides [video_id], [url] and
    [title], each with its default when it has one. *)
Variable extra_fields : list (string * option json).
(** yt-dlp's [extract_info] followed by [YtdlpMetadata.from_yt_dlp]. *)
Variable provider : string -> result YtdlpMetadata.t.

(** *** Serialisation *)

Definition _video_metadata_to_json (meta : YtdlpMetadata.t) : string :=
  json_dumps (JObj (YtdlpMetadata.asdict meta)).

(** [{f.name for f in fields(YtdlpMetadata)}] *)
Definition allowed : list string :=
  "video_id" :: "url" :: "title" :: map fst extra_fields.

Definition is_allowed (k : string) : bool :=
  existsb (fun f => (f =? k)%string) allowed.

(** A keyword argument declared [str]. *)
Definition str_arg (name : string) (kw : list (string * json)) : result string :=
  match assoc name kw with
  | None => Raise (TypeError_missing name)
  | Some (JStr s) => Ok s
  | Some _ => Raise (TypeError_field name)
  end.

Fixpoint extra_args (decl : list (string * option json)) (kw : list (string * json))
  : result (list (string * json)) :=
  match decl with
  | [] => Ok []
  | (name, dflt) :: decl' =>
      match (match assoc name kw with Some v => Some v | None => dflt end) with
      | None => Raise (TypeError_missing name)
      | Some v =>
          match extra_args decl' kw with
          | Ok rest => Ok ((name, v) :: rest)
          | Raise e => Raise e
          end
      end
  end.

(** The first keyword the dataclass does not declare. *)
Definition unexpected (kw : list (string * json)) : option string :=
  match find (fun kv => negb (is_allowed (fst kv))) kw with
  | Some (k, _) => Some k
  | None => None
  end.

(** The declared fields bound from the keywords: a field absent from [kw]
    takes its default, and raises [TypeError] when it has none. *)
Definition bind_fields (kw : list (string * json)) : result YtdlpMetadata.t :=
  match str_arg "video_id" kw with
  | Raise e => Raise e
  | Ok v =>
      match str_arg "url" kw with
      | Raise e => Raise e
      | Ok u =>
          match str_arg "title" kw with
          | Raise e => Raise e
          | Ok t =>
              match extra_args extra_fields kw with
              | Raise e => Raise e
              | Ok ex => Ok (YtdlpMetadata.make v u t ex)
              end
          end
      end
  end.

(** Modelled from the spec: the generated [__init__] of the missing
    dataclass [YtdlpMetadata], called with the keyword arguments [kw].  As
    every generated [__init__] it takes the declared fields and nothing else: a
    keyword that names no field raises [TypeError] ("unexpected keyword
    argument") before any field is bound. *)
Definition YtdlpMetadata_init (kw : list (string * json)) : result YtdlpMetadata.t :=
  match unexpected kw with
  | Some k => Raise (TypeError_unexpected k)
  | None => bind_fields kw
  end.

Definition _video_metadata_from_json (text : string) : result YtdlpMetadata.t :=
  match json_loads text with
  | None => Raise JSONDecodeError
  | Some (JObj raw) =>
      let filtered := filter (fun kv => is_allowed (fst kv)) raw in
      YtdlpMetadata_init filtered
  | Some _ => Raise ValueError_not_object
  end.

(** [YouTubeSource.from_VideoMetadata(meta=d)] *)
Definition from_VideoMetadata (meta : list (string * json)) : result YouTubeSource.t :=
  let item k := match assoc k meta with
                | None => Raise (KeyError k)
                | Some (JStr s) => Ok s
                | Some _ => Raise (TypeError_field k)
                end in
  match item "url" with
  | Raise e => Raise e
  | Ok u =>
      match item "video_id" with
      | Raise e => Raise e
      | Ok v =>
          match item "title" with
          | Raise e => Raise e
          | Ok t => Ok (YouTubeSource.make VIDEO v u t)
          end
      end
  end.

(** *** Indexing *)

(** The body of the [for p in self.cache_dir.glob("*.info")] loop of
    [refresh_index], for one entry: what it appends, if anything. *)
Definition index_entry (nd : node) : result (Z * YouTubeSource.t) :=
  match read_text nd with
  | Raise e => Raise e
  | Ok text =>
      match _video_metadata_from_json text with
      | Raise e => Raise e
      | Ok meta =>
          match from_VideoMetadata (YtdlpMetadata.asdict meta) with
          | Raise e => Raise e
          | Ok yt_source =>
              match nd with
              | File _ mt _ => Ok (mt, yt_source)
              | Dir mt => Ok (mt, yt_source)
              end
          end
      end
  end.

Fixpoint scan_info (d : directory) (entries : list (Z * YouTubeSource.t))
  : result (list (Z * YouTubeSource.t)) :=
  match d with
  | [] => Ok entries
  | (name, nd) :: d' =>
      if ends_with ".info" name && is_file nd then   (* glob, then p.is_file() *)
        match index_entry nd with
        | Ok e => scan_info d' (entries ++ [e])
        | Raise e => if is_OSError e then scan_info d' entries else Raise e
        end
      else scan_info d' entries
  end.

Definition refresh_index : M unit :=
  fun s =>
    match scan_info (cache_dir s) [] with
    | Ok entries => (Ok tt, set_index (sort_desc entries) s)
    | Raise e => (Raise e, s)
    end.

(** *** File naming and stale cleanup *)

Definition is_stale (prefix : string) (keep : option string) (e : string * node) : bool :=
  is_file (snd e) && starts_with prefix (fst e) &&
  match keep with
  | Some k => negb (fst e =? k)%string
  | None => true
  end.

(** The directory once the loop over [iterdir()] has unlinked what it
    found stale. *)
Definition purge (prefix : string) (keep : option string) (d : directory) : directory :=
  filter (fun e => negb (is_stale prefix keep e)) d.

Definition remove_stale_files_for_video_id (video_id : pyval) (keep : option string) : M unit :=
  fun s =>
    let prefix := (py_format video_id ++ ".")%string in
    let d' := purge prefix keep (cache_dir s) in
    let ix' := filter (fun e => str_ne (YouTubeSource.id (snd e)) video_id) (yt_source_list s) in
    (Ok tt, set_index ix' (set_dir d' s)).

Definition _prepend_to_index (yt_source : YouTubeSource.t) : M unit :=
  fun s =>
    match stat_mtime (info_path_for (YouTubeSource.id yt_source)) (cache_dir s) with
    | Raise _ => refresh_index s
    | Ok mtime =>
        let others := filter (fun e => negb (YouTubeSource.id (snd e) =? YouTubeSource.id yt_source)%string)
                             (yt_source_list s) in
        (Ok tt, set_index (sort_desc ((mtime, yt_source) :: others)) s)
    end.

(** *** Write/update cache entries *)

(** Returns [meta] as the call leaves it: the caller's object, whose
    [video_id] the method may have reassigned. *)
Definition cache_VideoMetadata (meta : YtdlpMetadata.t) : M YtdlpMetadata.t :=
  let vid := YtdlpMetadata.video_id meta in
  (* video_id := (extract_video_id(vid) != vid) *)
  let differs := match extract_video_id vid with
                 | Some v => negb (v =? vid)%string
                 | None => true
                 end in
  r <- (if differs then
          match truthy (extract_video_id (YtdlpMetadata.url meta)) with
          | Some v => ret (YtdlpMetadata.set_video_id v meta, v, PyStr v)
          | None => raise (ValueError_unresolvable vid (YtdlpMetadata.url meta))
          end
        else ret (meta, vid, PyBool differs)) ;;
  let '(meta, vid, video_id) := r in
  let info_file := info_path_for vid in
  remove_stale_files_for_video_id video_id (Some info_file) ;;
  _atomic_write_text info_file (_video_metadata_to_json meta) ;;
  yt_source <- lift (from_VideoMetadata (YtdlpMetadata.asdict meta)) ;;
  _prepend_to_index yt_source ;;
  ret meta.

(** *** Cropping cache *)

Fixpoint for_each {A} (l : list A) (body : A -> M unit) : M unit :=
  match l with
  | [] => ret tt
  | x :: l' => body x ;; for_each l' body
  end.

Definition crop_cache (num_entries : Z) : M unit :=
  if num_entries <? 0 then raise ValueError_negative
  else
    modify (fun s => set_index (sort_desc (yt_source_list s)) s) ;;
    ix <- get yt_source_list ;;
    let stale := skipn (Z.to_nat num_entries) ix in
    let keep := firstn (Z.to_nat num_entries) ix in
    for_each stale (fun e =>
      try_except
        (remove_stale_files_for_video_id (PyStr (YouTubeSource.id (snd e))) None)
        any_Exception (fun _ => ret tt)) ;;
    modify (set_index keep).

(** *** yt-dlp metadata *)

Definition _fetch_yt_dlp_metadata (url : string) : M YtdlpMetadata.t :=
  modify (log_call url) ;;
  meta <- lift (provider url) ;;
  cache_VideoMetadata meta.

(** *** Lookup *)

Definition read_path (name : string) (d : directory) : result string :=
  match assoc name d with
  | Some nd => read_text nd
  | None => Raise (OSError "FileNotFoundError")
  end.

(** The [try] block inside the loop of [get_video_metadata]: touch the
    file, rebuild the index, read the record; on any exception, [break]
    ([None]). *)
Definition serve_cached (info_file : string) : M (option YtdlpMetadata.t) :=
  try_except
    (modify (fun s => set_dir (touch info_file (now s) (cache_dir s)) s) ;;
     refresh_index ;;
     text <- (fun s => (read_path info_file (cache_dir s), s)) ;;
     meta <- lift (_video_metadata_from_json text) ;;
     ret (Some meta))
    any_Exception (fun _ => ret None).

(** The [for _, yt_src in self.yt_source_list] loop of
    [get_video_metadata]: [Some meta] when it returns from inside the
    loop, [None] when it breaks or runs out. *)
Fixpoint cached_lookup (vid : string) (entries : list (Z * YouTubeSource.t))
  : M (option YtdlpMetadata.t) :=
  match entries with
  | [] => ret None
  | (_, yt_src) :: rest =>
      if (YouTubeSource.id yt_src =? vid)%string then
        let info_file := info_path_for (YouTubeSource.id yt_src) in
        present <- get (fun s => path_is_file info_file (cache_dir s)) ;;
        if (present : bool) then serve_cached info_file
        else cached_lookup vid rest
      else cached_lookup vid rest
  end.

Definition get_video_metadata (url : string) : M YtdlpMetadata.t :=
  try_except
    (vid <- match truthy (extract_video_id url) with
            | Some v => ret v
            | None => raise (ValueError_no_video_id url)
            end ;;
     ix <- get yt_source_list ;;
     hit <- cached_lookup vid ix ;;
     match hit with
     | Some meta => ret meta
     | None => _fetch_yt_dlp_metadata url
     end)
    any_Exception (fun e => raise e).

(** *** Construction *)

(** [InfoManager.__init__], once [resolve_cache_paths] has named the cache
    directory: an empty index, then [refresh_index]. *)
Definition __init__ : M unit :=
  modify (set_index []) ;;
  refresh_index.

(** *** The newest entry *)

(** An instance of [YouTubeSource] is truthy (the dataclass defines neither
    [__bool__] nor [__len__]), so the path is returned whenever the index
    has an entry. *)
Definition get_latest_file : M (option string) :=
  ix <- get yt_source_list ;;
  match ix with
  | [] => ret None
  | (_, yt_source) :: _ => ret (Some (info_path_for (YouTubeSource.id yt_source)))
  end.

Definition get_latest_metadata : M (option YtdlpMetadata.t) :=
  latest_file <- get_latest_file ;;
  match latest_file with
  | None => ret None
  | Some f =>
      present <- get (fun s => path_is_file f (cache_dir s)) ;;
      if (present : bool) then
        try_except
          (text <- (fun s => (read_path f (cache_dir s), s)) ;;
           meta <- lift (_video_metadata_from_json text) ;;
           ret (Some meta))
          any_Exception (fun _ => ret None)
      else ret None
  end.

(** *** Cached URL list retrieval *)

(** Reading an attribute of the frozen dataclass does not raise: the
    [except] branch of the two loops is never taken. *)
Definition get_cached_urls : M (list string) :=
  ix <- get yt_source_list ;;
  ret (map (fun e => YouTubeSource.url (snd e)) ix).

Definition get_cached_prompts : M (list PromptChoice.t) :=
  ix <- get yt_source_list ;;
  ret (map (fun e => PromptChoice.make (YouTubeSource.title (snd e))
                                       (YouTubeSource.url (snd e))) ix).

(** *** Vocabulary of the statements *)

(** [m] is an instance of the dataclass: it holds one value per declared
    field. *)
Definition instance (m : YtdlpMetadata.t) : Prop :=
  map fst (YtdlpMetadata.extras m) = map fst extra_fields.

(** [m] holds JSON only: [json.loads(json.dumps(asdict(m))) == asdict(m)]. *)
Definition serialisable (m : YtdlpMetadata.t) : Prop :=
  json_loads (json_dumps (JObj (YtdlpMetadata.asdict m))) = Some (JObj (YtdlpMetadata.asdict m)).

(** No field is declared twice. *)
Fixpoint distinct (l : list string) : bool :=
  match l with
  | [] => true
  | x :: l' => negb (existsb (fun y => (y =? x)%string) l') && distinct l'
  end.

(** The text is not the encoding of a JSON object. *)
Definition invalid_encoding (text : string) : bool :=
  match json_loads text with
  | None => true
  | Some (JObj _) => false
  | Some _ => true
  end.

(** The scan gets past the entry: it indexes it, or skips it on an
    [OSError]. *)
Definition scannable (nd : node) : bool :=
  match index_entry nd with
  | Ok _ => true
  | Raise e => is_OSError e
  end.

Definition is_record_file (e : string * node) : bool :=
  ends_with ".info" (fst e) && is_file (snd e).

Definition healthy (d : directory) : bool :=
  forallb (fun e => negb (is_record_file e) || scannable (snd e)) d.

(** What the scan collects from a directory, in listing order. *)
Definition readable_entries (d : directory) : list (Z * YouTubeSource.t) :=
  flat_map (fun e => if is_record_file e
                     then match index_entry (snd e) with Ok x => [x] | Raise _ => [] end
                     else []) d.

Definition has_id (vid : string) (ix : list (Z * YouTubeSource.t)) : bool :=
  existsb (fun e => (YouTubeSource.id (snd e) =? vid)%string) ix.

(** [tempfile] has a free name to offer. *)
Definition tmp_available (pool : list string) (d : directory) : bool :=
  existsb (fun c => match assoc c d with Some _ => false | None => true end) pool.

(** The index entry built from a record. *)
Definition source_of (m : YtdlpMetadata.t) : YouTubeSource.t :=
  YouTubeSource.make VIDEO (YtdlpMetadata.video_id m) (YtdlpMetadata.url m) (YtdlpMetadata.title m).

(** The id [cache_VideoMetadata] files a record under: the record's
    [video_id] when the resolver maps it to itself, otherwise what the
    resolver makes of the record's [url]. *)
Definition resolved_id (m : YtdlpMetadata.t) : option string :=
  match extract_video_id (YtdlpMetadata.video_id m) with
  | Some v => if (v =? YtdlpMetadata.video_id m)%string
              then Some (YtdlpMetadata.video_id m)
              else truthy (extract_video_id (YtdlpMetadata.url m))
  | None => truthy (extract_video_id (YtdlpMetadata.url m))
  end.

(** The entries [crop_cache (n)] drops: all but the [n] newest. *)
Definition dropped (n : Z) (s : state) : list (Z * YouTubeSource.t) :=
  skipn (Z.to_nat n) (sort_desc (yt_source_list s)).

(** A regular file whose name starts with ["<id>."] for one of the ids. *)
Definition artifact_of (ids : list string) (e : string * node) : bool :=
  is_file (snd e) && existsb (fun v => starts_with (v ++ ".") (fst e)) ids.

(** A property of the state that a computation keeps, however it ends. *)
Definition invariant {A} (P : state -> Prop) (m : M A) : Prop :=
  forall s, P s -> P (snd (m s)).

(** The fields a record must be given: it has no default for them. *)
Definition required : list string :=
  "video_id" :: "url" :: "title"
    :: map fst (filter (fun f => match snd f with None => true | Some _ => false end)
                       extra_fields).

(** The document gives strings where the dataclass declares [str]. *)
Definition well_typed (raw : list (string * json)) : Prop :=
  forall k, In k ("video_id" :: "url" :: "title" :: nil) ->
            match assoc k raw with
            | Some (JStr _) | None => True
            | Some _ => False
            end.

(** The text, when it is a JSON object, gives strings where the dataclass
    declares [str]. *)
Definition typed_text (text : string) : Prop :=
  match json_loads text with
  | Some (JObj raw) => well_typed raw
  | _ => True
  end.

Definition typed_dir (d : directory) : Prop :=
  forall name c mt, In (name, File c mt true) d -> typed_text c.

(** Every readable regular [*.info] file holds a record. *)
Definition decodable (d : directory) : Prop :=
  forall name c mt,
    In (name, File c mt true) d -> ends_with ".info" name = true ->
    exists m, _video_metadata_from_json c = Ok m.

End InfoCache.

(** ** The manager over the reference instances, and some cache states *)
Module Run.

Definition refresh_index : M unit :=
  refresh_index MiniJson.loads Fixture.extra_fields.
Definition cache_VideoMetadata : YtdlpMetadata.t -> M YtdlpMetadata.t :=
  cache_VideoMetadata Fixture.extract_video_id MiniJson.dumps MiniJson.loads Fixture.extra_fields.
Definition crop_cache : Z -> M unit := crop_cache.
Definition get_video_metadata : string -> M YtdlpMetadata.t :=
  get_video_metadata Fixture.extract_video_id MiniJson.dumps MiniJson.loads
    Fixture.extra_fields Fixture.provider.

Definition init : M unit := __init__ MiniJson.loads Fixture.extra_fields.
Definition get_latest_metadata : M (option YtdlpMetadata.t) :=
  get_latest_metadata MiniJson.loads Fixture.extra_fields.

(** An empty cache at time 0. *)
Definition empty : state := mkState [] 0 ["tmpk3x0_q7a"] [] [].

(** [v1.info] and [v1.legacy] on disk, [v1] in the index. *)
Definition with_legacy : state :=
  mkState [("v1.info", File (Fixture.text_of "v1") 5 true);
           ("v1.legacy", File "old" 3 true)]
          10 ["tmpk3x0_q7a"] [] [(5, Fixture.source "v1")].

(** [v1.info] overwritten by hand with an invalid document. *)
Definition corrupted : state :=
  mkState [("v1.info", File "{not json" 5 true)]
          10 ["tmpk3x0_q7a"] [] [(5, Fixture.source "v1")].

(** Two records on disk, one of them malformed; nothing indexed yet. *)
Definition one_bad_file : state :=
  mkState [("good.info", File (Fixture.text_of "good") 7 true);
           ("bad.info", File "{not json" 5 true)]
          10 ["tmpk3x0_q7a"] [] [].

(** A readable record and one the process may not read. *)
Definition one_locked_file : state :=
  mkState [("good.info", File (Fixture.text_of "good") 7 true);
           ("locked.info", File (Fixture.text_of "locked") 9 false);
           ("notes.txt", File "not a record" 8 true)]
          10 ["tmpk3x0_q7a"] [] [].

(** The record path of [v1] taken by a directory. *)
Definition blocked : state :=
  mkState [("v1.info", Dir 1)] 10 ["tmpk3x0_q7a"] [] [].

(** Three indexed records, newest first. *)
Definition three : state :=
  mkState [("A.info", File (Fixture.text_of "A") 9 true);
           ("B.info", File (Fixture.text_of "B") 8 true);
           ("C.info", File (Fixture.text_of "C") 7 true)]
          10 ["tmpk3x0_q7a"] []
          [(9, Fixture.source "A"); (8, Fixture.source "B"); (7, Fixture.source "C")].

End Run.


(** * Facts *)

(** ** Strings and names *)

Lemma length_append (a b : string) :
  String.length (a ++ b)%string = (String.length a + String.length b)%nat.
Proof. induction a as [|c a IH]; simpl; [reflexivity | now rewrite IH]. Qed.

Lemma append_inj_l (t a b : string) : (a ++ t)%string = (b ++ t)%string -> a = b.
Proof.
  revert b; induction a as [|c a IH]; intros [|c' b] H; simpl in H.
  - reflexivity.
  - apply (f_equal String.length) in H; simpl in H; rewrite length_append in H; lia.
  - apply (f_equal String.length) in H; simpl in H; rewrite length_append in H; lia.
  - injection H as -> H. f_equal. now apply IH.
Qed.

Lemma info_path_for_inj (a b : string) : info_path_for a = info_path_for b -> a = b.
Proof. apply append_inj_l. Qed.

Lemma info_path_for_neq (a b : string) :
  a <> b -> (info_path_for a =? info_path_for b)%string = false.
Proof. intros H. apply String.eqb_neq. intros E. now apply H, info_path_for_inj. Qed.

Lemma ends_with_refl (suf : string) : ends_with suf suf = true.
Proof. destruct suf; simpl; [reflexivity|]. now rewrite Ascii.eqb_refl, String.eqb_refl. Qed.

Lemma ends_with_app (suf s : string) : ends_with suf (s ++ suf) = true.
Proof.
  induction s as [|c s IH].
  - apply ends_with_refl.
  - change ((String c s ++ suf)%string) with (String c (s ++ suf)%string).
    cbn [ends_with]. rewrite IH. apply orb_true_r.
Qed.

Lemma info_path_is_record (vid : string) : ends_with ".info" (info_path_for vid) = true.
Proof. apply ends_with_app. Qed.

(** ** Dictionaries and the directory listing *)

Lemma assoc_app {V} (k : string) (d1 d2 : list (string * V)) :
  assoc k (d1 ++ d2) = match assoc k d1 with Some v => Some v | None => assoc k d2 end.
Proof.
  induction d1 as [|[k' v] d1 IH]; simpl; [reflexivity|].
  destruct (k' =? k)%string; [reflexivity | apply IH].
Qed.

Lemma assoc_In {V} (k : string) (v : V) (d : list (string * V)) :
  assoc k d = Some v -> In (k, v) d.
Proof.
  induction d as [|[k' v'] d IH]; simpl; [discriminate|].
  destruct (k' =? k)%string eqn:E.
  - apply String.eqb_eq in E. intros [= ->]. left. now subst.
  - intros H. right. now apply IH.
Qed.

Lemma assoc_filter {V} (p : string * V -> bool) (k : string) (d : list (string * V)) :
  (forall v, In (k, v) d -> p (k, v) = true) ->
  assoc k (filter p d) = assoc k d.
Proof.
  induction d as [|[k' v'] d IH]; intros H; simpl; [reflexivity|].
  destruct (k' =? k)%string eqn:E.
  - apply String.eqb_eq in E; subst k'.
    rewrite (H v') by now left. simpl. now rewrite String.eqb_refl.
  - destruct (p (k', v')); simpl; rewrite ?E; apply IH; intros v Hv; apply H; now right.
Qed.

Lemma assoc_filter_None {V} (p : string * V -> bool) (k : string) (d : list (string * V)) :
  assoc k d = None -> assoc k (filter p d) = None.
Proof.
  induction d as [|[k' v'] d IH]; simpl; [reflexivity|].
  destruct (k' =? k)%string eqn:E; [discriminate|].
  intros H. destruct (p (k', v')); simpl; rewrite ?E; now apply IH.
Qed.

Lemma assoc_upsert_same (name : string) (nd : node) (d : directory) :
  assoc name (upsert name nd d) = Some nd.
Proof.
  induction d as [|[n x] d IH]; simpl.
  - now rewrite String.eqb_refl.
  - destruct (n =? name)%string eqn:E; simpl; rewrite E; [reflexivity | apply IH].
Qed.

Lemma assoc_upsert_other (name k : string) (nd : node) (d : directory) :
  name <> k -> assoc k (upsert name nd d) = assoc k d.
Proof.
  intros Hne. induction d as [|[n x] d IH]; simpl.
  - apply String.eqb_neq in Hne. now rewrite Hne.
  - destruct (n =? name)%string eqn:E; simpl.
    + apply String.eqb_eq in E; subst n. apply String.eqb_neq in Hne. now rewrite Hne.
    + destruct (n =? k)%string; [reflexivity | apply IH].
Qed.

Lemma upsert_absent (name : string) (nd : node) (d : directory) :
  assoc name d = None -> upsert name nd d = d ++ [(name, nd)].
Proof.
  induction d as [|[n x] d IH]; simpl; [reflexivity|].
  destruct (n =? name)%string; [discriminate|]. intros H. now rewrite IH.
Qed.

Lemma upsert_last (name : string) (x nd : node) (d : directory) :
  assoc name d = None -> upsert name nd (d ++ [(name, x)]) = d ++ [(name, nd)].
Proof.
  induction d as [|[n y] d IH]; simpl.
  - now rewrite String.eqb_refl.
  - destruct (n =? name)%string; [discriminate|]. intros H. now rewrite IH.
Qed.

Lemma remove_last (name : string) (x : node) (d : directory) :
  assoc name d = None -> remove name (d ++ [(name, x)]) = d.
Proof.
  unfold remove. induction d as [|[n y] d IH]; simpl.
  - now rewrite String.eqb_refl.
  - destruct (n =? name)%string; [discriminate|]. simpl. intros H. now rewrite IH.
Qed.

Lemma assoc_remove_other (name k : string) (d : directory) :
  name <> k -> assoc k (remove name d) = assoc k d.
Proof.
  intros Hne. unfold remove. apply assoc_filter. intros v _. simpl.
  apply negb_true_iff, String.eqb_neq. congruence.
Qed.

Lemma In_upsert (name : string) (nd : node) (d : directory) (e : string * node) :
  In e (upsert name nd d) -> e = (name, nd) \/ In e d.
Proof.
  induction d as [|[n x] d IH]; simpl.
  - intros [<-|[]]. now left.
  - destruct (n =? name)%string eqn:E; simpl.
    + apply String.eqb_eq in E; subst n. intros [<-|H]; [now left | right; now right].
    + intros [<-|H]; [right; now left |]. destruct (IH H); [now left | right; now right].
Qed.

Lemma assoc_touch (name k : string) (t : Z) (d : directory) :
  assoc k (touch name t d) =
  if (name =? k)%string
  then match assoc k d with
       | Some (File c _ r) => Some (File c t r)
       | Some (Dir _) => Some (Dir t)
       | None => None
       end
  else assoc k d.
Proof.
  induction d as [|[n x] d IH]; simpl.
  - now destruct (name =? k)%string.
  - destruct (n =? name)%string eqn:E; simpl.
    + apply String.eqb_eq in E; subst n.
      destruct (name =? k)%string; [now destruct x | reflexivity].
    + destruct (n =? k)%string eqn:E'; [|apply IH].
      apply String.eqb_eq in E'; subst n. rewrite String.eqb_sym in E. now rewrite E.
Qed.

(** A touched listing holds the same entries, one of them re-stamped. *)
Lemma In_touch (name : string) (t : Z) (d : directory) (n : string) (nd : node) :
  In (n, nd) (touch name t d) ->
  In (n, nd) d \/
  (n = name /\ exists nd0, In (n, nd0) d /\
     nd = match nd0 with File c _ r => File c t r | Dir _ => Dir t end).
Proof.
  induction d as [|[n0 x] d IH]; simpl; [tauto|].
  destruct (n0 =? name)%string eqn:E; simpl.
  - apply String.eqb_eq in E; subst n0.
    intros [[= <- <-]|H]; [|left; now right].
    right. split; [reflexivity|]. exists x. split; [now left | reflexivity].
  - intros [H|H]; [left; now left|].
    destruct (IH H) as [H'|(-> & nd0 & H' & ->)]; [left; now right|].
    right. split; [reflexivity|]. exists nd0. split; [now right | reflexivity].
Qed.

(** ** Sorting *)

Lemma insert_desc_head {A} (x : Z * A) (l : list (Z * A)) :
  newest_first (x :: l) -> insert_desc x l = x :: l.
Proof.
  destruct l as [|y l]; simpl; [reflexivity|].
  intros [H _]. destruct (Z.ltb_spec (fst x) (fst y)); [lia | reflexivity].
Qed.

Lemma sort_desc_sorted_id {A} (l : list (Z * A)) : newest_first l -> sort_desc l = l.
Proof.
  induction l as [|x l IH]; [reflexivity|].
  intros H. change (sort_desc (x :: l)) with (insert_desc x (sort_desc l)).
  rewrite IH by apply H. now apply insert_desc_head.
Qed.

Lemma insert_desc_sorted {A} (x : Z * A) (l : list (Z * A)) :
  newest_first l -> newest_first (insert_desc x l).
Proof.
  induction l as [|y l IH]; simpl; [tauto|].
  intros [Hy Hl]. destruct (Z.ltb_spec (fst x) (fst y)) as [Hlt|Hge].
  - split; [|now apply IH].
    destruct l as [|z l]; simpl; [lia|].
    destruct (Z.ltb_spec (fst x) (fst z)); simpl; lia.
  - simpl. repeat split; try assumption.
Qed.

Lemma sort_desc_sorted {A} (l : list (Z * A)) : newest_first (sort_desc l).
Proof.
  induction l as [|x l IH]; simpl; [exact I | now apply insert_desc_sorted].
Qed.

Lemma firstn_sorted {A} (n : nat) (l : list (Z * A)) :
  newest_first l -> newest_first (firstn n l).
Proof.
  revert l; induction n as [|n IH]; intros [|x l]; simpl; try tauto.
  intros [Hx Hl]. split; [|now apply IH].
  destruct n; [exact I|]. destruct l; [exact I | exact Hx].
Qed.

Lemma In_insert_desc {A} (e x : Z * A) (l : list (Z * A)) :
  In e (insert_desc x l) <-> e = x \/ In e l.
Proof.
  induction l as [|y l IH]; simpl; [intuition congruence|].
  destruct (fst x <? fst y); simpl; [rewrite IH|]; intuition congruence.
Qed.

Lemma In_sort_desc {A} (e : Z * A) (l : list (Z * A)) : In e (sort_desc l) <-> In e l.
Proof.
  induction l as [|x l IH]; simpl; [tauto|].
  rewrite In_insert_desc, IH. intuition congruence.
Qed.

(** ** The atomic write *)

Lemma string_append_assoc (a b c : string) : ((a ++ b) ++ c = a ++ (b ++ c))%string.
Proof. induction a as [|x a IH]; simpl; [reflexivity | now rewrite IH]. Qed.

Lemma string_append_nil_r (a : string) : (a ++ "")%string = a.
Proof. induction a as [|x a IH]; simpl; [reflexivity | now rewrite IH]. Qed.

Lemma pick_tmp_free (pool : list string) (d : directory) (tmp : string) :
  pick_tmp pool d = Some tmp -> assoc tmp d = None.
Proof.
  unfold pick_tmp. intros H. apply find_some in H as [_ H].
  now destruct (assoc tmp d).
Qed.

Lemma pick_tmp_available (pool : list string) (d : directory) :
  tmp_available pool d = true -> exists tmp, pick_tmp pool d = Some tmp.
Proof.
  unfold tmp_available, pick_tmp. induction pool as [|c pool IH]; simpl; [discriminate|].
  destruct (assoc c d); simpl; [exact IH | intros _; now exists c].
Qed.

(** Writing the chunks [cs] after the content [c0] of the temporary file. *)
Lemma run_write_chunks (t : Z) (tmp : string) (rest : list io_step) (d : directory) :
  assoc tmp d = None ->
  forall (cs : list ascii) (c0 : string),
    run_steps t (map (fun c => Append tmp (String c EmptyString)) cs ++ rest)
              (d ++ [(tmp, File c0 t true)]) =
    run_steps t rest (d ++ [(tmp, File (c0 ++ string_of_list_ascii cs) t true)]).
Proof.
  intros Hfree. induction cs as [|c cs IH]; intros c0; simpl.
  - now rewrite string_append_nil_r.
  - rewrite assoc_app, Hfree. simpl. rewrite String.eqb_refl.
    rewrite upsert_last by assumption. rewrite IH.
    now rewrite string_append_assoc.
Qed.


Lemma run_atomic_write (t : Z) (tmp name text : string) (d : directory) :
  assoc tmp d = None ->
  (forall mt, assoc name d <> Some (Dir mt)) ->
  run_steps t (atomic_write_steps tmp name text) d =
  (Ok tt, upsert name (File text t true) d).
Proof.
  intros Hfree Hdir. unfold atomic_write_steps, write_chunks.
  cbn [run_steps run_step]. rewrite Hfree.
  rewrite (run_write_chunks t tmp [Replace tmp name] d Hfree).
  cbn [run_steps run_step append]. rewrite string_of_list_ascii_of_string.
  rewrite assoc_app, Hfree. simpl. rewrite String.eqb_refl.
  destruct (tmp =? name)%string eqn:E.
  - apply String.eqb_eq in E; subst name. now rewrite upsert_absent.
  - rewrite assoc_app. rewrite remove_last by assumption.
    destruct (assoc name d) as [[c mt r|mt]|] eqn:En; simpl; rewrite ?E; try reflexivity.
    now destruct (Hdir mt).
Qed.

Lemma atomic_write_ok (name text : string) (s : state) :
  tmp_available (tmp_pool s) (cache_dir s) = true ->
  (forall mt, assoc name (cache_dir s) <> Some (Dir mt)) ->
  _atomic_write_text name text s =
  (Ok tt, set_dir (upsert name (File text (now s) true) (cache_dir s)) s).
Proof.
  intros Hav Hdir. unfold _atomic_write_text.
  destruct (pick_tmp_available _ _ Hav) as [tmp Htmp]. rewrite Htmp.
  rewrite run_atomic_write; [reflexivity | now apply pick_tmp_free in Htmp | assumption].
Qed.


(** ** Stale cleanup and cropping *)

Lemma remove_stale_run (v : pyval) (keep : option string) (s : state) :
  remove_stale_files_for_video_id v keep s =
  (Ok tt,
   set_index (filter (fun e => str_ne (YouTubeSource.id (snd e)) v) (yt_source_list s))
     (set_dir (purge (py_format v ++ ".") keep (cache_dir s)) s)).
Proof. reflexivity. Qed.

(** C10. [remove_stale_files_for_video_id vid keep] never raises and leaves
    no index entry whose id is [vid], whatever [keep] is, while the entries
    of other ids stay; with [keep] the id's own record path, what the
    directory holds under that path is left as it was.  So a record file kept
    on disk has no index entry after the cleanup. *)
Theorem C10_cleanup_drops_index_entry (s : state) (vid : string) (keep : option string) :
  let r := remove_stale_files_for_video_id (PyStr vid) keep s in
  fst r = Ok tt /\
  (forall e, In e (yt_source_list (snd r)) -> YouTubeSource.id (snd e) <> vid) /\
  (forall e, In e (yt_source_list s) -> YouTubeSource.id (snd e) <> vid ->
             In e (yt_source_list (snd r))) /\
  (keep = Some (info_path_for vid) ->
   assoc (info_path_for vid) (cache_dir (snd r)) = assoc (info_path_for vid) (cache_dir s)).
Proof.
  cbv zeta. rewrite remove_stale_run. cbn [fst snd set_index set_dir yt_source_list cache_dir].
  repeat split.
  - intros e He. apply filter_In in He as [_ He]. simpl in He.
    now apply negb_true_iff, String.eqb_neq in He.
  - intros e He Hne. apply filter_In. split; [assumption|]. simpl.
    now apply negb_true_iff, String.eqb_neq.
  - intros ->. unfold purge. apply assoc_filter. intros v _. unfold is_stale. cbn [fst snd].
    rewrite String.eqb_refl. cbn. now rewrite andb_false_r.
Qed.

Lemma for_each_cleanup (l : list (Z * YouTubeSource.t)) (s : state) :
  exists s',
    for_each l (fun e =>
      try_except
        (remove_stale_files_for_video_id (PyStr (YouTubeSource.id (snd e))) None)
        any_Exception (fun _ => ret tt)) s = (Ok tt, s')
    /\ now s' = now s /\ tmp_pool s' = tmp_pool s /\ provider_log s' = provider_log s.
Proof.
  revert s; induction l as [|e l IH]; intros s; simpl.
  - exists s. now repeat split.
  - unfold bind at 1, try_except at 1. rewrite remove_stale_run.
    destruct (IH (set_index
                    (filter (fun e0 => str_ne (YouTubeSource.id (snd e0))
                                              (PyStr (YouTubeSource.id (snd e))))
                            (yt_source_list s))
                    (set_dir
                       (purge (py_format (PyStr (YouTubeSource.id (snd e))) ++ ".") None
                              (cache_dir s)) s))) as (s' & -> & H1 & H2 & H3).
    exists s'. now repeat split.
Qed.

(** C8. For a non-negative count, [crop_cache] returns normally and leaves
    the [n] newest index entries; run again with the same count it changes
    nothing: the state it returns (index, directory and every file in it) is
    the state it was given. *)
Theorem C8_crop_idempotent (s : state) (n : Z) :
  0 <= n ->
  let s1 := snd (crop_cache n s) in
  fst (crop_cache n s) = Ok tt /\
  yt_source_list s1 = firstn (Z.to_nat n) (sort_desc (yt_source_list s)) /\
  crop_cache n s1 = (Ok tt, s1).
Proof.
  intros Hn. cbv zeta.
  assert (Hrun : forall s0, exists s',
             crop_cache n s0 =
             (Ok tt, set_index (firstn (Z.to_nat n) (sort_desc (yt_source_list s0))) s') /\
             (skipn (Z.to_nat n) (sort_desc (yt_source_list s0)) = [] ->
              s' = set_index (sort_desc (yt_source_list s0)) s0)).
  { intros s0. unfold crop_cache.
    destruct (Z.ltb_spec n 0) as [|_]; [lia|].
    unfold bind at 1, modify at 1. unfold bind at 1, get at 1.
    cbn [yt_source_list set_index].
    unfold bind at 1.
    destruct (for_each_cleanup (skipn (Z.to_nat n) (sort_desc (yt_source_list s0)))
                (set_index (sort_desc (yt_source_list s0)) s0)) as (s' & Hs' & _).
    exists s'. split.
    - rewrite Hs'. reflexivity.
    - intros Hnil. rewrite Hnil in Hs'. simpl in Hs'. now injection Hs' as <-. }
  destruct (Hrun s) as (s' & Hs & _). rewrite Hs. cbn [fst snd].
  split; [reflexivity|]. split; [reflexivity|].
  set (keep := firstn (Z.to_nat n) (sort_desc (yt_source_list s))).
  assert (Hsorted : sort_desc keep = keep).
  { apply sort_desc_sorted_id, firstn_sorted, sort_desc_sorted. }
  destruct (Hrun (set_index keep s')) as (s2 & Hs2 & Hnil). rewrite Hs2.
  cbn [yt_source_list set_index] in Hnil |- *. rewrite Hsorted in Hnil |- *.
  rewrite Hnil.
  - unfold keep at 1. rewrite firstn_firstn, Nat.min_id. reflexivity.
  - apply skipn_all2. unfold keep. apply firstn_le_length.
Qed.

Section Facts.

Set Default Proof Using "Type".

Variable extract_video_id : string -> option string.
Variable json_dumps : json -> string.
Variable json_loads : string -> option json.
Variable extra_fields : list (string * option json).
Variable provider : string -> result YtdlpMetadata.t.

Local Abbreviation to_json := (_video_metadata_to_json json_dumps).
Local Abbreviation from_json := (_video_metadata_from_json json_loads extra_fields).
Local Abbreviation refresh := (refresh_index json_loads extra_fields).
Local Abbreviation entry_of := (index_entry json_loads extra_fields).
Local Abbreviation scan := (scan_info json_loads extra_fields).
Local Abbreviation prepend := (_prepend_to_index json_loads extra_fields).
Local Abbreviation store :=
  (cache_VideoMetadata extract_video_id json_dumps json_loads extra_fields).
Local Abbreviation fetch :=
  (_fetch_yt_dlp_metadata extract_video_id json_dumps json_loads extra_fields provider).
Local Abbreviation hit_loop := (cached_lookup json_loads extra_fields).
Local Abbreviation lookup :=
  (get_video_metadata extract_video_id json_dumps json_loads extra_fields provider).
Local Abbreviation fields_ok := (distinct (allowed extra_fields) = true).
Local Abbreviation is_instance := (instance extra_fields).
Local Abbreviation is_serialisable := (serialisable json_dumps json_loads).

(** ** Serialisation *)

Lemma assoc_distinct {V} (k : string) (v : V) (d : list (string * V)) :
  distinct (map fst d) = true -> In (k, v) d -> assoc k d = Some v.
Proof.
  induction d as [|[k0 v0] d IH]; simpl; [intros _ []|].
  intros Hd [[= -> ->]|Hin].
  - now rewrite String.eqb_refl.
  - apply andb_true_iff in Hd as [Hk Hd].
    destruct (k0 =? k)%string eqn:E; [|now apply IH].
    apply String.eqb_eq in E; subst k0. exfalso.
    apply negb_true_iff in Hk.
    assert (existsb (fun y => (y =? k)%string) (map fst d) = true) as Hex.
    { apply existsb_exists. exists k. split; [|apply String.eqb_refl].
      change k with (fst (k, v)). now apply in_map. }
    congruence.
Qed.

Lemma is_allowed_In (k : string) : In k (allowed extra_fields) -> is_allowed extra_fields k = true.
Proof.
  intros H. unfold is_allowed. apply existsb_exists. exists k. split; [assumption|].
  apply String.eqb_refl.
Qed.

Lemma asdict_keys (m : YtdlpMetadata.t) :
  is_instance m -> map fst (YtdlpMetadata.asdict m) = allowed extra_fields.
Proof. intros H. unfold YtdlpMetadata.asdict, allowed. simpl. now rewrite H. Qed.

Lemma extra_args_ok (kw : list (string * json)) :
  forall (decl : list (string * option json)) (ex : list (string * json)),
    map fst ex = map fst decl ->
    (forall k v, In (k, v) ex -> assoc k kw = Some v) ->
    extra_args decl kw = Ok ex.
Proof.
  induction decl as [|[name dflt] decl IH]; intros [|[k v] ex] Hk Hv; try discriminate.
  - reflexivity.
  - simpl in Hk. injection Hk as -> Hk. simpl.
    rewrite (Hv name v) by now left.
    rewrite (IH ex Hk); [reflexivity|].
    intros k' v' H. apply Hv. now right.
Qed.

(** What the filter of [_video_metadata_from_json] lets through, the
    constructor takes: no keyword is left that it would refuse. *)
Lemma unexpected_filter (raw : list (string * json)) :
  unexpected extra_fields (filter (fun kv => is_allowed extra_fields (fst kv)) raw) = None.
Proof.
  unfold unexpected.
  destruct (find _ (filter _ raw)) as [[k v]|] eqn:E; [|reflexivity].
  apply find_some in E as [Hin Hk]. apply filter_In in Hin as [_ Hal].
  cbn [fst] in *. rewrite Hal in Hk. discriminate.
Qed.

Lemma YtdlpMetadata_init_filter (raw : list (string * json)) :
  YtdlpMetadata_init extra_fields (filter (fun kv => is_allowed extra_fields (fst kv)) raw)
  = bind_fields extra_fields (filter (fun kv => is_allowed extra_fields (fst kv)) raw).
Proof. unfold YtdlpMetadata_init. now rewrite unexpected_filter. Qed.

(** Without the filter an undeclared key is refused. *)
Lemma YtdlpMetadata_init_unexpected (kw : list (string * json)) (k : string) (v : json) :
  In (k, v) kw -> is_allowed extra_fields k = false ->
  exists k', is_allowed extra_fields k' = false /\
             YtdlpMetadata_init extra_fields kw = Raise (TypeError_unexpected k').
Proof.
  intros Hin Hk. unfold YtdlpMetadata_init, unexpected.
  destruct (find (fun kv => negb (is_allowed extra_fields (fst kv))) kw) as [[k' v']|] eqn:E.
  - apply find_some in E as [_ Hk']. cbn [fst] in Hk'. apply negb_true_iff in Hk'.
    now exists k'.
  - apply (find_none _ _ E) in Hin. cbn [fst] in Hin. rewrite Hk in Hin. discriminate.
Qed.

(** The binding only looks at the declared keys. *)
Lemma bind_fields_ok (m : YtdlpMetadata.t) (kw : list (string * json)) :
  fields_ok -> is_instance m ->
  (forall k, is_allowed extra_fields k = true -> assoc k kw = assoc k (YtdlpMetadata.asdict m)) ->
  bind_fields extra_fields kw = Ok m.
Proof.
  intros Hd Hi Hkw. unfold bind_fields, str_arg.
  rewrite !Hkw by (apply is_allowed_In; unfold allowed; simpl; auto).
  cbn -[extra_args].
  rewrite (extra_args_ok kw extra_fields (YtdlpMetadata.extras m)).
  - now destruct m.
  - exact Hi.
  - intros k v Hin. rewrite Hkw.
    + apply assoc_distinct.
      * now rewrite asdict_keys.
      * unfold YtdlpMetadata.asdict. right; right; right. exact Hin.
    + apply is_allowed_In. unfold allowed. right; right; right.
      rewrite <- Hi. change k with (fst (k, v)). now apply in_map.
Qed.

Lemma from_json_object (text : string) (raw : list (string * json)) (m : YtdlpMetadata.t) :
  fields_ok -> is_instance m ->
  json_loads text = Some (JObj raw) ->
  (forall k, is_allowed extra_fields k = true -> assoc k raw = assoc k (YtdlpMetadata.asdict m)) ->
  from_json text = Ok m.
Proof.
  intros Hd Hi Hl Hraw. unfold _video_metadata_from_json. rewrite Hl.
  rewrite YtdlpMetadata_init_filter. apply bind_fields_ok; try assumption.
  intros k Hk. rewrite <- (Hraw k Hk).
  apply assoc_filter. intros v _. exact Hk.
Qed.

Lemma from_json_to_json (m : YtdlpMetadata.t) :
  fields_ok -> is_instance m -> is_serialisable m -> from_json (to_json m) = Ok m.
Proof.
  intros Hd Hi Hs. eapply from_json_object; try eassumption. reflexivity.
Qed.

(** C6. A record that is an instance of the dataclass and holds JSON only
    is read back as it was written; and any document that decodes to an
    object agreeing with the record on the declared fields is read as that
    record, whatever undeclared fields it carries besides: they are
    dropped by the filter before the constructor, which would refuse them,
    is called. *)
Theorem C6_round_trip (r : YtdlpMetadata.t) :
  fields_ok -> is_instance r ->
  (is_serialisable r -> from_json (to_json r) = Ok r) /\
  (forall text raw,
      json_loads text = Some (JObj raw) ->
      (forall k, is_allowed extra_fields k = true ->
                 assoc k raw = assoc k (YtdlpMetadata.asdict r)) ->
      from_json text = Ok r).
Proof.
  intros Hd Hi. split.
  - now apply from_json_to_json.
  - intros text raw Hl Hraw. now apply from_json_object with raw.
Qed.

(** ** The directory scan *)

Lemma scan_healthy (d : directory) :
  healthy json_loads extra_fields d = true ->
  forall acc, scan d acc = Ok (acc ++ readable_entries json_loads extra_fields d).
Proof.
  induction d as [|[name nd] d IH]; intros H acc; simpl.
  - now rewrite app_nil_r.
  - simpl in H. apply andb_true_iff in H as [Hh Hd].
    unfold is_record_file in *. cbn [fst snd] in *.
    destruct (ends_with ".info" name && is_file nd); simpl in Hh.
    + unfold scannable in Hh. destruct (entry_of nd) as [x|e].
      * rewrite (IH Hd). now rewrite <- app_assoc.
      * rewrite Hh. now apply IH.
    + now apply IH.
Qed.

(** One record file that does not decode stops the scan. *)
Lemma scan_raises (d : directory) (name text : string) (mt : Z) (e0 : exn) :
  assoc name d = Some (File text mt true) ->
  ends_with ".info" name = true ->
  from_json text = Raise e0 ->
  is_OSError e0 = false ->
  forall acc, exists e, scan d acc = Raise e /\ is_OSError e = false.
Proof.
  intros Hin Hname Hbad Hos.
  induction d as [|[n nd] d IH]; intros acc; simpl in *; [discriminate|].
  destruct (n =? name)%string eqn:E.
  - apply String.eqb_eq in E; subst n. injection Hin as ->.
    rewrite Hname. simpl. unfold index_entry. simpl. rewrite Hbad, Hos.
    now exists e0.
  - destruct (ends_with ".info" n && is_file nd); [|now apply IH].
    destruct (entry_of nd) as [x|e]; [now apply IH|].
    destruct (is_OSError e) eqn:Ee; [now apply IH | now exists e].
Qed.

Lemma invalid_encoding_raises (text : string) :
  invalid_encoding json_loads text = true ->
  exists e, from_json text = Raise e /\ is_CorruptRecord e = true /\ is_OSError e = false.
Proof.
  unfold invalid_encoding, _video_metadata_from_json.
  destruct (json_loads text) as [[| | | | |]|]; try discriminate; intros _.
  all: eexists; repeat split.
Qed.

(** C3 (amended). The scan skips the entries that are not regular
    [*.info] files and those whose read raises an [OSError], and indexes
    the others newest first, provided each of them decodes; a readable
    record file that does not decode (invalid JSON, not an object, a
    required field missing) is not skipped: [refresh_index] raises, the
    error is not an [OSError], and the index stays as it was. *)
Theorem C3_scan_skips_only_os_errors (s : state) :
  (healthy json_loads extra_fields (cache_dir s) = true ->
   refresh s =
   (Ok tt, set_index (sort_desc (readable_entries json_loads extra_fields (cache_dir s))) s)) /\
  (forall c mt, scannable json_loads extra_fields (File c mt false) = true) /\
  (forall name text mt e0,
      assoc name (cache_dir s) = Some (File text mt true) ->
      ends_with ".info" name = true ->
      from_json text = Raise e0 ->
      is_CorruptRecord e0 = true ->
      exists e, refresh s = (Raise e, s) /\ is_OSError e = false).
Proof.
  repeat split.
  - intros H. unfold refresh_index. now rewrite (scan_healthy _ H).
  - intros name text mt e0 Hin Hname Hbad Hc.
    assert (is_OSError e0 = false) as Hos by now destruct e0.
    destruct (scan_raises _ _ Hin Hname Hbad Hos []) as (e & He & Hose).
    exists e. unfold refresh_index. now rewrite He.
Qed.

(** ** Lookup *)

Lemma try_except_reraise {A} (m : M A) (s : state) :
  try_except m any_Exception (fun e => raise e) s = m s.
Proof. unfold try_except. now destruct (m s) as [[a|e] s']. Qed.

(** C9. When no identifier can be derived from the reference
    ([extract_video_id] gives [None] or the empty string), the lookup
    raises the no-video-id [ValueError] (the spec's [InvalidReference])
    and the state it leaves (index, directory, clock, provider log) is the
    state it was called in. *)
Theorem C9_invalid_reference (url : string) (s : state) :
  truthy (extract_video_id url) = None ->
  lookup url s = (Raise (ValueError_no_video_id url), s) /\
  is_InvalidReference (ValueError_no_video_id url) = true.
Proof.
  intros H. split; [|reflexivity].
  unfold get_video_metadata. rewrite try_except_reraise.
  unfold bind at 1. now rewrite H.
Qed.

(** ** Storing a record *)

Lemma filter_str_ne_bool (b : bool) (ix : list (Z * YouTubeSource.t)) :
  filter (fun e => str_ne (YouTubeSource.id (snd e)) (PyBool b)) ix = ix.
Proof. rewrite (filter_ext _ (fun _ => true)); [apply filter_true | reflexivity]. Qed.

Lemma tmp_available_purge (pool : list string) (prefix : string) (keep : option string)
      (d : directory) :
  tmp_available pool d = true -> tmp_available pool (purge prefix keep d) = true.
Proof.
  unfold tmp_available. induction pool as [|c pool IH]; simpl; [easy|].
  intros H. apply orb_true_iff in H as [H|H]; apply orb_true_iff; [left | right; auto].
  destruct (assoc c d) eqn:E; [discriminate|].
  unfold purge. now rewrite assoc_filter_None.
Qed.

Lemma assoc_purge_keep (prefix name : string) (d : directory) :
  assoc name (purge prefix (Some name) d) = assoc name d.
Proof.
  apply assoc_filter. intros v _. unfold is_stale. cbn [fst snd].
  rewrite String.eqb_refl. cbn. now rewrite andb_false_r.
Qed.

(** A name outside the prefix is not touched by the purge. *)
Lemma assoc_purge_other (prefix name : string) (keep : option string) (d : directory) :
  starts_with prefix name = false ->
  assoc name (purge prefix keep d) = assoc name d.
Proof.
  intros H. apply assoc_filter. intros v _. unfold is_stale. cbn [fst snd].
  rewrite H. now rewrite andb_false_r.
Qed.

Lemma from_VideoMetadata_asdict (m : YtdlpMetadata.t) :
  from_VideoMetadata (YtdlpMetadata.asdict m) = Ok (source_of m).
Proof. reflexivity. Qed.

(** What [cache_VideoMetadata] does with a record whose [video_id] is
    already what the resolver makes of it: [video_id] is bound to [False],
    so the purge looks for the prefix ["False."] and the index is not
    filtered by [remove_stale_files_for_video_id]. *)
Lemma store_canonical (m : YtdlpMetadata.t) (s : state) :
  let vid := YtdlpMetadata.video_id m in
  extract_video_id vid = Some vid ->
  tmp_available (tmp_pool s) (cache_dir s) = true ->
  (forall mt, assoc (info_path_for vid) (cache_dir s) <> Some (Dir mt)) ->
  store m s =
  (Ok m,
   mkState (upsert (info_path_for vid) (File (to_json m) (now s) true)
                   (purge "False." (Some (info_path_for vid)) (cache_dir s)))
           (now s) (tmp_pool s) (provider_log s)
           (sort_desc ((now s, source_of m)
                         :: filter (fun e => negb (YouTubeSource.id (snd e) =? vid)%string)
                                   (yt_source_list s)))).
Proof.
  intros vid Hcanon Hav Hdir. unfold cache_VideoMetadata. cbv zeta. fold vid.
  rewrite Hcanon, String.eqb_refl. cbn [negb].
  unfold bind at 1, ret at 1. cbv iota beta.
  unfold bind at 1. rewrite remove_stale_run. rewrite filter_str_ne_bool.
  cbn [py_format append].
  unfold bind at 1. rewrite atomic_write_ok.
  - cbn [cache_dir set_dir set_index now tmp_pool provider_log yt_source_list].
    unfold bind at 1, lift at 1. rewrite from_VideoMetadata_asdict.
    unfold bind at 1, _prepend_to_index.
    cbn [cache_dir set_dir set_index now tmp_pool provider_log yt_source_list source_of
         YouTubeSource.id].
    fold vid. unfold stat_mtime. rewrite assoc_upsert_same.
    unfold ret, set_index. cbn. destruct s; reflexivity.
  - cbn [cache_dir set_dir set_index tmp_pool]. now apply tmp_available_purge.
  - cbn [cache_dir set_dir set_index]. intros mt. rewrite assoc_purge_keep. apply Hdir.
Qed.

(** ** The loop of [get_video_metadata] *)

Lemma hit_loop_miss (vid : string) (ix : list (Z * YouTubeSource.t)) (s : state) :
  has_id vid ix = false -> hit_loop vid ix s = (Ok None, s).
Proof.
  induction ix as [|[mt src] ix IH]; simpl; [reflexivity|].
  intros H. apply orb_false_iff in H as [H1 H2]. rewrite H1. now apply IH.
Qed.

Lemma hit_loop_hit (vid : string) (ix : list (Z * YouTubeSource.t)) (s : state) :
  has_id vid ix = true ->
  path_is_file (info_path_for vid) (cache_dir s) = true ->
  hit_loop vid ix s = serve_cached json_loads extra_fields (info_path_for vid) s.
Proof.
  intros Hid Hp. induction ix as [|[mt src] ix IH]; simpl in *; [discriminate|].
  destruct (YouTubeSource.id src =? vid)%string eqn:E.
  - apply String.eqb_eq in E. rewrite E.
    unfold bind at 1, get at 1. now rewrite Hp.
  - now apply IH.
Qed.

Lemma tmp_available_touch (pool : list string) (name : string) (t : Z) (d : directory) :
  tmp_available pool d = true -> tmp_available pool (touch name t d) = true.
Proof.
  unfold tmp_available. induction pool as [|c pool IH]; simpl; [easy|].
  intros H. apply orb_true_iff in H as [H|H]; apply orb_true_iff; [left | right; auto].
  rewrite assoc_touch. destruct (assoc c d); [discriminate|].
  now destruct (name =? c)%string.
Qed.

(** On a record file that does not decode, the [try] block touches the
    file, fails in [refresh_index] and breaks out of the loop. *)
Lemma serve_cached_corrupt (s : state) (name text : string) (mt : Z) :
  assoc name (cache_dir s) = Some (File text mt true) ->
  ends_with ".info" name = true ->
  invalid_encoding json_loads text = true ->
  serve_cached json_loads extra_fields name s =
  (Ok None, set_dir (touch name (now s) (cache_dir s)) s).
Proof.
  intros Hin Hname Hbad.
  destruct (invalid_encoding_raises _ Hbad) as (e0 & He0 & _ & Hos).
  unfold serve_cached, try_except.
  unfold bind at 1, modify at 1. unfold bind at 1, refresh_index at 1.
  cbn [cache_dir set_dir].
  destruct (scan_raises (touch name (now s) (cache_dir s)) name (mt := now s)
                        (text := text) (e0 := e0)) with (acc := @nil (Z * YouTubeSource.t))
    as (e & He & _); try assumption.
  - rewrite assoc_touch, String.eqb_refl, Hin. reflexivity.
  - rewrite He. reflexivity.
Qed.

(** Run [get_video_metadata] up to the result of its loop, for a reference
    that resolves ([H]). *)
Ltac enter_lookup H :=
  unfold get_video_metadata; rewrite try_except_reraise;
  unfold bind at 1; rewrite H; unfold ret at 1;
  unfold bind at 1, get at 1; unfold bind at 1.

(** Run [_fetch_yt_dlp_metadata] up to the call of [cache_VideoMetadata],
    for a provider that answers ([H]). *)
Ltac enter_fetch H :=
  unfold _fetch_yt_dlp_metadata;
  unfold bind at 1, modify at 1; unfold bind at 1, lift at 1; rewrite H.

(** C2 (amended). When the record file of the id the reference resolves to
    holds an invalid encoding (not JSON, or not an object), the lookup
    raises no corruption error: it behaves as on a miss, calling the
    provider (after touching the file when the id is indexed).  A failure
    of the provider is what the lookup raises; a record the provider
    returns under that id is what the lookup returns, and its
    serialisation replaces the content of the file. *)
Theorem C2_corrupt_record_falls_back (s : state) (url vid text : string) (mt : Z) :
  truthy (extract_video_id url) = Some vid ->
  assoc (info_path_for vid) (cache_dir s) = Some (File text mt true) ->
  invalid_encoding json_loads text = true ->
  let s0 := if has_id vid (yt_source_list s)
            then set_dir (touch (info_path_for vid) (now s) (cache_dir s)) s
            else s in
  lookup url s = fetch url s0 /\
  (forall e, provider url = Raise e -> lookup url s = (Raise e, log_call url s0)) /\
  (forall R, provider url = Ok R ->
             YtdlpMetadata.video_id R = vid ->
             extract_video_id vid = Some vid ->
             tmp_available (tmp_pool s) (cache_dir s) = true ->
             exists s', lookup url s = (Ok R, s') /\
                        assoc (info_path_for vid) (cache_dir s') =
                          Some (File (to_json R) (now s) true) /\
                        provider_log s' = provider_log s ++ [url]).
Proof.
  intros Hvid Hfile Hbad s0.
  assert (Hlook : lookup url s = fetch url s0).
  { enter_lookup Hvid. subst s0.
    destruct (has_id vid (yt_source_list s)) eqn:Hid.
    - rewrite hit_loop_hit; [|assumption|unfold path_is_file; now rewrite Hfile].
      rewrite (serve_cached_corrupt s _ Hfile (info_path_is_record vid) Hbad).
      reflexivity.
    - rewrite hit_loop_miss by assumption. reflexivity. }
  split; [exact Hlook|]. split.
  - intros e He. rewrite Hlook. now enter_fetch He.
  - intros R HR Hid Hcanon Hav. rewrite Hlook. enter_fetch HR.
    assert (Hs0 : now s0 = now s /\ tmp_pool s0 = tmp_pool s /\
                  provider_log s0 = provider_log s /\
                  tmp_available (tmp_pool s) (cache_dir s0) = true /\
                  exists mt', assoc (info_path_for vid) (cache_dir s0) =
                              Some (File text mt' true)).
    { subst s0. destruct (has_id vid (yt_source_list s)); cbn [now tmp_pool provider_log
        cache_dir set_dir]; repeat split; try assumption.
      - now apply tmp_available_touch.
      - exists (now s). rewrite assoc_touch, String.eqb_refl, Hfile. reflexivity.
      - now exists mt. }
    destruct Hs0 as (Hnow & Hpool & Hlog & Hav0 & mt' & Hfile0).
    rewrite store_canonical.
    + eexists. split; [reflexivity|]. cbn [cache_dir provider_log log_call now].
      rewrite Hid, assoc_upsert_same, Hnow, Hlog. now split.
    + now rewrite Hid.
    + cbn [tmp_pool cache_dir log_call]. now rewrite Hpool.
    + intros m. cbn [cache_dir log_call]. rewrite Hid, Hfile0. discriminate.
Qed.

(** ** Healthy directories *)

Lemma healthy_spec (d : directory) :
  healthy json_loads extra_fields d = true <->
  (forall n nd, In (n, nd) d -> is_record_file (n, nd) = true ->
                scannable json_loads extra_fields nd = true).
Proof.
  unfold healthy. rewrite forallb_forall. split.
  - intros H n nd Hin Hrec. specialize (H _ Hin). rewrite Hrec in H. exact H.
  - intros H [n nd] Hin. cbn [snd].
    destruct (is_record_file (n, nd)) eqn:E; [|reflexivity]. now apply (H n nd).
Qed.

Lemma scannable_retime (c : string) (t t' : Z) (r : bool) :
  scannable json_loads extra_fields (File c t r) =
  scannable json_loads extra_fields (File c t' r).
Proof.
  unfold scannable, index_entry. destruct r; simpl; [|reflexivity].
  destruct (from_json c) as [m|e]; [|reflexivity].
  now destruct (from_VideoMetadata (YtdlpMetadata.asdict m)).
Qed.

Lemma healthy_purge (prefix : string) (keep : option string) (d : directory) :
  healthy json_loads extra_fields d = true ->
  healthy json_loads extra_fields (purge prefix keep d) = true.
Proof.
  rewrite !healthy_spec. intros H n nd Hin. apply H.
  unfold purge in Hin. now apply filter_In in Hin.
Qed.

Lemma healthy_upsert (name : string) (nd : node) (d : directory) :
  healthy json_loads extra_fields d = true ->
  scannable json_loads extra_fields nd = true ->
  healthy json_loads extra_fields (upsert name nd d) = true.
Proof.
  rewrite !healthy_spec. intros H Hnd n x Hin Hrec.
  destruct (In_upsert _ _ _ _ Hin) as [[= -> ->]|Hin']; [assumption | now apply (H n)].
Qed.

Lemma healthy_touch (name : string) (t : Z) (d : directory) :
  healthy json_loads extra_fields d = true ->
  healthy json_loads extra_fields (touch name t d) = true.
Proof.
  rewrite !healthy_spec. intros H n x Hin Hrec.
  destruct (In_touch _ _ _ _ _ Hin) as [Hin'|(-> & nd0 & Hin' & ->)]; [now apply (H n)|].
  destruct nd0 as [c mt r|mt].
  - rewrite (scannable_retime c t mt r). apply (H name); [assumption|].
    unfold is_record_file in *. cbn [fst snd is_file] in *. exact Hrec.
  - unfold is_record_file in Hrec. cbn in Hrec. rewrite andb_false_r in Hrec. discriminate.
Qed.

Lemma entry_of_record (m : YtdlpMetadata.t) (t : Z) :
  fields_ok -> is_instance m -> is_serialisable m ->
  entry_of (File (to_json m) t true) = Ok (t, source_of m).
Proof.
  intros Hd Hi Hs. unfold index_entry. cbn [read_text].
  rewrite from_json_to_json by assumption. now rewrite from_VideoMetadata_asdict.
Qed.

Lemma has_id_In (vid : string) (ix : list (Z * YouTubeSource.t)) (e : Z * YouTubeSource.t) :
  In e ix -> YouTubeSource.id (snd e) = vid -> has_id vid ix = true.
Proof.
  intros Hin Hid. unfold has_id. apply existsb_exists. exists e. split; [assumption|].
  rewrite Hid. apply String.eqb_refl.
Qed.

(** A hit on a record the cache wrote itself, in a healthy directory:
    touch, re-index, and return the record read back. *)
Lemma serve_cached_record (s : state) (vid : string) (m : YtdlpMetadata.t) (mt : Z) :
  fields_ok -> is_instance m -> is_serialisable m ->
  assoc (info_path_for vid) (cache_dir s) = Some (File (to_json m) mt true) ->
  healthy json_loads extra_fields (cache_dir s) = true ->
  let d' := touch (info_path_for vid) (now s) (cache_dir s) in
  serve_cached json_loads extra_fields (info_path_for vid) s =
  (Ok (Some m),
   set_index (sort_desc (readable_entries json_loads extra_fields d')) (set_dir d' s)).
Proof.
  intros Hd Hi Hs Hfile Hh d'.
  unfold serve_cached, try_except.
  unfold bind at 1, modify at 1. unfold bind at 1, refresh_index at 1.
  cbn [cache_dir set_dir]. fold d'.
  rewrite (scan_healthy d') by (now apply healthy_touch).
  cbn [app]. unfold bind at 1. cbn [cache_dir set_dir set_index].
  unfold read_path. unfold d' at 1.
  rewrite assoc_touch, String.eqb_refl, Hfile. cbn [read_text].
  unfold bind at 1, lift at 1. rewrite from_json_to_json by assumption.
  reflexivity.
Qed.

(** C4. Looking up a reference that is neither indexed nor on disk, with
    a provider that returns the record of the resolved id, in a cache whose
    record files all scan: the first lookup returns the provider's record,
    calls the provider once (one more url in the log) and writes one file,
    the record's [.info]; an immediate second lookup of the same reference
    returns the same record read back from that file, without calling the
    provider, and only touches the file. *)
Theorem C4_miss_then_hit (s : state) (url vid : string) (R : YtdlpMetadata.t) :
  truthy (extract_video_id url) = Some vid ->
  has_id vid (yt_source_list s) = false ->
  assoc (info_path_for vid) (cache_dir s) = None ->
  provider url = Ok R ->
  YtdlpMetadata.video_id R = vid ->
  extract_video_id vid = Some vid ->
  fields_ok -> is_instance R -> is_serialisable R ->
  tmp_available (tmp_pool s) (cache_dir s) = true ->
  healthy json_loads extra_fields (cache_dir s) = true ->
  let s1 := snd (lookup url s) in
  let s2 := snd (lookup url s1) in
  fst (lookup url s) = Ok R /\
  provider_log s1 = provider_log s ++ [url] /\
  cache_dir s1 = purge "False." (Some (info_path_for vid)) (cache_dir s)
                   ++ [(info_path_for vid, File (to_json R) (now s) true)] /\
  fst (lookup url s1) = Ok R /\
  provider_log s2 = provider_log s1 /\
  cache_dir s2 = touch (info_path_for vid) (now s1) (cache_dir s1).
Proof.
  intros Hvid Hnew Hnofile HR Hid Hcanon Hd Hi Hs Hav Hh.
  (* the first lookup: a miss *)
  assert (H1 : lookup url s =
               (Ok R,
                mkState (purge "False." (Some (info_path_for vid)) (cache_dir s)
                           ++ [(info_path_for vid, File (to_json R) (now s) true)])
                        (now s) (tmp_pool s) (provider_log s ++ [url])
                        (sort_desc ((now s, source_of R)
                           :: filter (fun e => negb (YouTubeSource.id (snd e) =? vid)%string)
                                     (yt_source_list s))))).
  { enter_lookup Hvid.
    rewrite hit_loop_miss by assumption.
    enter_fetch HR.
    rewrite store_canonical; rewrite ?Hid; cbn [cache_dir tmp_pool log_call]; try assumption.
    - cbn [now provider_log yt_source_list].
      rewrite upsert_absent; [reflexivity|].
      unfold purge. now apply assoc_filter_None.
    - intros mt. rewrite Hnofile. discriminate. }
  cbv zeta. rewrite H1. cbn [fst snd cache_dir provider_log].
  split; [reflexivity|]. split; [reflexivity|]. split; [reflexivity|].
  (* the second lookup: a hit *)
  match goal with |- context [lookup url ?st] => set (s1 := st) end.
  assert (Hfile1 : assoc (info_path_for vid) (cache_dir s1) =
                   Some (File (to_json R) (now s) true)).
  { unfold s1. cbn [cache_dir]. rewrite assoc_app.
    unfold purge. rewrite assoc_filter_None by assumption.
    simpl. now rewrite String.eqb_refl. }
  assert (Hh1 : healthy json_loads extra_fields (cache_dir s1) = true).
  { unfold s1. cbn [cache_dir].
    rewrite <- upsert_absent by (unfold purge; now apply assoc_filter_None).
    apply healthy_upsert; [now apply healthy_purge|].
    unfold scannable. now rewrite entry_of_record. }
  assert (Hid1 : has_id vid (yt_source_list s1) = true).
  { apply has_id_In with (e := (now s, source_of R)).
    - unfold s1. cbn [yt_source_list]. apply In_sort_desc. now left.
    - exact Hid. }
  assert (H2 : lookup url s1 =
               (Ok R,
                let d' := touch (info_path_for vid) (now s1) (cache_dir s1) in
                set_index (sort_desc (readable_entries json_loads extra_fields d'))
                          (set_dir d' s1))).
  { enter_lookup Hvid.
    rewrite hit_loop_hit; [|assumption|unfold path_is_file; now rewrite Hfile1].
    rewrite (serve_cached_record s1 vid Hd Hi Hs Hfile1 Hh1). reflexivity. }
  rewrite H2. cbn [fst snd]. repeat split.
Qed.

(** ** Three stores and a lookup *)

Lemma tmp_available_In (pool : list string) (d : directory) (c : string) :
  In c pool -> assoc c d = None -> tmp_available pool d = true.
Proof.
  intros Hin Hfree. unfold tmp_available. apply existsb_exists.
  exists c. split; [assumption | now rewrite Hfree].
Qed.

Lemma is_stale_other (prefix : string) (keep : option string) (e : string * node) :
  starts_with prefix (fst e) = false -> is_stale prefix keep e = false.
Proof. intros H. unfold is_stale. rewrite H. now rewrite andb_false_r. Qed.

Lemma is_stale_kept (prefix name : string) (nd : node) :
  is_stale prefix (Some name) (name, nd) = false.
Proof. unfold is_stale. cbn [fst]. rewrite String.eqb_refl. cbn. apply andb_false_r. Qed.

Lemma purge_cons (prefix : string) (keep : option string) (e : string * node) (d : directory) :
  is_stale prefix keep e = false -> purge prefix keep (e :: d) = e :: purge prefix keep d.
Proof. intros H. unfold purge. cbn [filter]. now rewrite H. Qed.

Lemma not_record_name (c vid : string) : ends_with ".info" c = false -> c <> info_path_for vid.
Proof. intros H ->. rewrite info_path_is_record in H. discriminate. Qed.

(** C5. From an empty cache, storing records for three distinct ids [a],
    [b], [c] at times [t1 < t2 < t3] leaves the index in the order
    [c; b; a]; looking [a] up at a later time [t4] is a hit that returns
    the stored record, stamps [a] with [t4] and leaves the index, rebuilt
    from the directory and sorted newest first, in the order [a; c; b]. *)
Theorem C5_recency_order (s0 : state) (a b c url_a tmp : string)
        (Ra Rb Rc : YtdlpMetadata.t) (t1 t2 t3 t4 : Z) :
  cache_dir s0 = [] -> yt_source_list s0 = [] ->
  In tmp (tmp_pool s0) -> ends_with ".info" tmp = false ->
  YtdlpMetadata.video_id Ra = a -> YtdlpMetadata.video_id Rb = b ->
  YtdlpMetadata.video_id Rc = c ->
  extract_video_id a = Some a -> extract_video_id b = Some b -> extract_video_id c = Some c ->
  a <> b -> a <> c -> b <> c ->
  starts_with "False." (info_path_for a) = false ->
  starts_with "False." (info_path_for b) = false ->
  fields_ok ->
  is_instance Ra -> is_instance Rb -> is_instance Rc ->
  is_serialisable Ra -> is_serialisable Rb -> is_serialisable Rc ->
  truthy (extract_video_id url_a) = Some a ->
  t1 < t2 -> t2 < t3 -> t3 < t4 ->
  let s1 := snd (store Ra (set_now t1 s0)) in
  let s2 := snd (store Rb (set_now t2 s1)) in
  let s3 := snd (store Rc (set_now t3 s2)) in
  let r4 := lookup url_a (set_now t4 s3) in
  yt_source_list s3 = [(t3, source_of Rc); (t2, source_of Rb); (t1, source_of Ra)] /\
  fst r4 = Ok Ra /\
  yt_source_list (snd r4) = [(t4, source_of Ra); (t3, source_of Rc); (t2, source_of Rb)] /\
  map (fun e => YouTubeSource.id (snd e)) (yt_source_list (snd r4)) = [a; c; b].
Proof.
  intros Hdir Hix Htmp Htmpn Ha Hb Hc Hca Hcb Hcc Hab Hac Hbc HFa HFb
         Hd Hia Hib Hic Hsa Hsb Hsc Hurl H12 H23 H34.
  destruct s0 as [d0 n0 pool log ix0]. cbn [cache_dir yt_source_list tmp_pool] in *.
  subst d0 ix0.
  pose proof (info_path_for_neq Hab) as Nab.
  pose proof (info_path_for_neq Hac) as Nac.
  pose proof (info_path_for_neq Hbc) as Nbc.
  pose proof (not_record_name a Htmpn) as Ta.
  pose proof (not_record_name b Htmpn) as Tb.
  apply String.eqb_neq in Ta, Tb. rewrite String.eqb_sym in Ta, Tb.
  (* store a *)
  assert (E1 : store Ra (set_now t1 (mkState [] n0 pool log [])) =
               (Ok Ra, mkState [(info_path_for a, File (to_json Ra) t1 true)]
                               t1 pool log [(t1, source_of Ra)])).
  { rewrite store_canonical; rewrite ?Ha; cbn [cache_dir tmp_pool set_now];
      [ reflexivity | assumption | now apply tmp_available_In with tmp
      | intros mt; discriminate ]. }
  cbv zeta. rewrite E1. cbn [snd].
  (* store b *)
  assert (E2 : store Rb (set_now t2 (mkState [(info_path_for a, File (to_json Ra) t1 true)]
                                             t1 pool log [(t1, source_of Ra)])) =
               (Ok Rb, mkState [(info_path_for a, File (to_json Ra) t1 true);
                                (info_path_for b, File (to_json Rb) t2 true)]
                               t2 pool log [(t2, source_of Rb); (t1, source_of Ra)])).
  { rewrite store_canonical; rewrite ?Hb; cbn [cache_dir tmp_pool set_now];
      [ | assumption
        | apply tmp_available_In with tmp; [assumption | cbn [assoc]; now rewrite Ta]
        | intros mt; cbn [assoc]; rewrite Nab; discriminate ].
    cbn [now set_now yt_source_list].
    rewrite purge_cons by now apply is_stale_other.
    cbn [purge filter upsert]. rewrite Nab. cbn [upsert].
    cbn [filter snd YouTubeSource.id source_of]. rewrite Ha.
    apply String.eqb_neq in Hab as Eab. rewrite Eab. cbn [negb].
    rewrite (sort_desc_sorted_id [(t2, source_of Rb); (t1, source_of Ra)])
      by (cbn; lia).
    reflexivity. }
  rewrite E2. cbn [snd].
  (* store c *)
  assert (E3 : store Rc (set_now t3 (mkState [(info_path_for a, File (to_json Ra) t1 true);
                                              (info_path_for b, File (to_json Rb) t2 true)]
                                             t2 pool log
                                             [(t2, source_of Rb); (t1, source_of Ra)])) =
               (Ok Rc, mkState [(info_path_for a, File (to_json Ra) t1 true);
                                (info_path_for b, File (to_json Rb) t2 true);
                                (info_path_for c, File (to_json Rc) t3 true)]
                               t3 pool log
                               [(t3, source_of Rc); (t2, source_of Rb); (t1, source_of Ra)])).
  { rewrite store_canonical; rewrite ?Hc; cbn [cache_dir tmp_pool set_now];
      [ | assumption
        | apply tmp_available_In with tmp; [assumption | cbn [assoc]; now rewrite Ta, Tb]
        | intros mt; cbn [assoc]; rewrite Nac, Nbc; discriminate ].
    cbn [now set_now yt_source_list].
    rewrite purge_cons by now apply is_stale_other.
    rewrite purge_cons by now apply is_stale_other.
    cbn [purge filter upsert]. rewrite Nac. cbn [upsert]. rewrite Nbc. cbn [upsert].
    cbn [filter snd YouTubeSource.id source_of]. rewrite Ha, Hb.
    apply String.eqb_neq in Hac as Eac. apply String.eqb_neq in Hbc as Ebc.
    rewrite Eac, Ebc. cbn [negb].
    rewrite (sort_desc_sorted_id [(t3, source_of Rc); (t2, source_of Rb); (t1, source_of Ra)])
      by (cbn; lia).
    reflexivity. }
  rewrite E3. cbn [snd].
  split; [reflexivity|].
  (* look a up *)
  match goal with |- context [lookup url_a ?st] => set (s3 := st) end.
  assert (H4 : lookup url_a s3 =
               (Ok Ra,
                let d' := touch (info_path_for a) (now s3) (cache_dir s3) in
                set_index (sort_desc (readable_entries json_loads extra_fields d'))
                          (set_dir d' s3))).
  { enter_lookup Hurl.
    assert (Hfile : assoc (info_path_for a) (cache_dir s3) =
                    Some (File (to_json Ra) t1 true)).
    { unfold s3. cbn [cache_dir set_now assoc]. now rewrite String.eqb_refl. }
    rewrite hit_loop_hit.
    - rewrite (serve_cached_record s3 a Hd Hia Hsa Hfile); [reflexivity|].
      unfold s3. cbn [cache_dir set_now]. apply healthy_spec.
      intros n nd [[= <- <-]|[[= <- <-]|[[= <- <-]|[]]]] _;
        unfold scannable; now rewrite entry_of_record.
    - unfold s3. cbn [yt_source_list set_now].
      apply has_id_In with (e := (t1, source_of Ra)); [cbn; tauto | exact Ha].
    - unfold path_is_file. now rewrite Hfile. }
  rewrite H4. cbn [fst snd]. split; [reflexivity|].
  unfold s3. cbn [cache_dir set_now now touch set_index set_dir yt_source_list].
  rewrite String.eqb_refl.
  unfold readable_entries, is_record_file. cbn [flat_map fst snd is_file].
  rewrite !info_path_is_record. cbn [andb].
  rewrite !entry_of_record by assumption. cbn [app].
  cbn [sort_desc fold_right insert_desc fst].
  destruct (Z.ltb_spec t2 t3); [|lia]. cbn [insert_desc fst].
  destruct (Z.ltb_spec t4 t3); [lia|].
  split; [reflexivity|]. cbn. now rewrite Ha, Hb, Hc.
Qed.

(** ** The stale artifact that stays *)

(** C1 (code bug). The claim is that storing a record for [vid] purges
    every file named [vid.*] but the target.  On the ordinary path, where
    the record's [video_id] is already what the resolver makes of it, the
    code hands [remove_stale_files_for_video_id] the value [False] (the
    walrus binds the comparison, not the id): the store succeeds, the
    target holds the new content, and every artifact of [vid] whose name
    does not start with ["False."] is still there. *)
Theorem C1_stale_artifact_survives (s : state) (m : YtdlpMetadata.t) (name : string)
        (nd : node) :
  let vid := YtdlpMetadata.video_id m in
  extract_video_id vid = Some vid ->
  tmp_available (tmp_pool s) (cache_dir s) = true ->
  (forall mt, assoc (info_path_for vid) (cache_dir s) <> Some (Dir mt)) ->
  assoc name (cache_dir s) = Some nd ->
  starts_with (vid ++ ".") name = true ->
  name <> info_path_for vid ->
  starts_with "False." name = false ->
  exists s',
    store m s = (Ok m, s') /\
    assoc (info_path_for vid) (cache_dir s') = Some (File (to_json m) (now s) true) /\
    assoc name (cache_dir s') = Some nd.
Proof.
  intros vid Hcanon Hav Hdir Hname _ Hne HF.
  eexists. split; [now apply store_canonical|].
  cbn [cache_dir]. fold vid. split.
  - apply assoc_upsert_same.
  - rewrite assoc_upsert_other by congruence.
    now rewrite assoc_purge_other.
Qed.

(** The other path of [cache_VideoMetadata]: the record's [video_id] is not
    what the resolver makes of it, the id [v] is extracted from the url and
    [video_id] is rebound to it.  There the purge is the one the docstring
    describes: no regular file named [v.*] is left but the target. *)
Lemma store_rederived_purges (s : state) (m : YtdlpMetadata.t) (v : string) :
  extract_video_id (YtdlpMetadata.video_id m) <> Some (YtdlpMetadata.video_id m) ->
  truthy (extract_video_id (YtdlpMetadata.url m)) = Some v ->
  tmp_available (tmp_pool s) (cache_dir s) = true ->
  (forall mt, assoc (info_path_for v) (cache_dir s) <> Some (Dir mt)) ->
  exists s',
    store m s = (Ok (YtdlpMetadata.set_video_id v m), s') /\
    forall name c mt r,
      In (name, File c mt r) (cache_dir s') ->
      starts_with (v ++ ".") name = true ->
      name = info_path_for v.
Proof.
  intros Hdiff Hurl Hav Hdir. unfold cache_VideoMetadata. cbv zeta.
  assert (match extract_video_id (YtdlpMetadata.video_id m) with
          | Some x => negb (x =? YtdlpMetadata.video_id m)%string
          | None => true
          end = true) as ->.
  { destruct (extract_video_id (YtdlpMetadata.video_id m)) as [x|]; [|reflexivity].
    apply negb_true_iff, String.eqb_neq. congruence. }
  rewrite Hurl. unfold bind at 1, ret at 1. cbv iota beta.
  unfold bind at 1. rewrite remove_stale_run. cbn [py_format].
  unfold bind at 1. rewrite atomic_write_ok.
  - cbn [cache_dir set_dir set_index now tmp_pool provider_log yt_source_list].
    unfold bind at 1, lift at 1. rewrite from_VideoMetadata_asdict.
    unfold bind at 1, _prepend_to_index.
    cbn [cache_dir set_dir set_index now tmp_pool provider_log yt_source_list source_of
         YouTubeSource.id YtdlpMetadata.video_id YtdlpMetadata.set_video_id].
    unfold stat_mtime. rewrite assoc_upsert_same. unfold ret.
    eexists. split; [reflexivity|].
    cbn [cache_dir set_index]. intros name c mt r Hin Hpre.
    apply In_upsert in Hin as [[= -> _ _ _]|Hin]; [reflexivity|].
    unfold purge in Hin. apply filter_In in Hin as [_ Hst].
    unfold is_stale in Hst. cbn [fst snd is_file] in Hst. rewrite Hpre in Hst.
    cbn in Hst. apply negb_true_iff, negb_false_iff in Hst.
    now apply String.eqb_eq in Hst.
  - cbn [cache_dir set_dir set_index tmp_pool]. now apply tmp_available_purge.
  - cbn [cache_dir set_dir set_index]. intros mt. rewrite assoc_purge_keep. apply Hdir.
Qed.

(** * Further properties of the cache manager *)

(** ** The index rebuilt from the directory *)

Lemma entry_of_spec (c : string) (mt : Z) (r : bool) (e : Z * YouTubeSource.t) :
  entry_of (File c mt r) = Ok e <->
  r = true /\ exists m, from_json c = Ok m /\ e = (mt, source_of m).
Proof.
  unfold index_entry. destruct r; cbn [read_text].
  - destruct (from_json c) as [m|err].
    + rewrite from_VideoMetadata_asdict. split.
      * intros [= <-]. split; [reflexivity|]. now exists m.
      * intros (_ & m' & [= <-] & ->). reflexivity.
    + split; [discriminate|]. intros (_ & m' & Hm & _). discriminate.
  - split; [discriminate|]. intros [H _]. discriminate.
Qed.

Lemma In_readable_entries (d : directory) (e : Z * YouTubeSource.t) :
  In e (readable_entries json_loads extra_fields d) <->
  exists name c m,
    In (name, File c (fst e) true) d /\ ends_with ".info" name = true /\
    from_json c = Ok m /\ snd e = source_of m.
Proof.
  unfold readable_entries. rewrite in_flat_map. split.
  - intros ([name nd] & Hin & He). unfold is_record_file in He. cbn [fst snd] in He.
    destruct (ends_with ".info" name) eqn:En; [|destruct He].
    destruct nd as [c mt r|mt]; [|destruct He]. cbn [is_file andb] in He.
    destruct (entry_of (File c mt r)) as [x|err] eqn:Ex; [|destruct He].
    destruct He as [<-|[]]. apply entry_of_spec in Ex as (-> & m & Hm & ->).
    exists name, c, m. now repeat split.
  - intros (name & c & m & Hin & En & Hm & Hs).
    exists (name, File c (fst e) true). split; [assumption|].
    unfold is_record_file. cbn [fst snd is_file]. rewrite En. cbn [andb].
    assert (entry_of (File c (fst e) true) = Ok e) as ->.
    { apply entry_of_spec. split; [reflexivity|]. exists m. split; [assumption|].
      destruct e; cbn in *; now subst. }
    now left.
Qed.

(** The scan succeeds on healthy directories only. *)
Lemma scan_ok_healthy (d : directory) :
  forall acc r, scan d acc = Ok r -> healthy json_loads extra_fields d = true.
Proof.
  induction d as [|[name nd] d IH]; intros acc r H; [reflexivity|].
  cbn [scan_info] in H. cbn [healthy forallb]. fold (healthy json_loads extra_fields d).
  unfold is_record_file at 1. cbn [fst snd].
  destruct (ends_with ".info" name && is_file nd); cbn [negb orb].
  - unfold scannable. destruct (entry_of nd) as [x|e].
    + cbn. now apply IH in H.
    + destruct (is_OSError e); [cbn; now apply IH in H | discriminate].
  - now apply IH in H.
Qed.

Lemma extra_args_raise (kw : list (string * json)) :
  forall (decl : list (string * option json)) (e : exn),
    extra_args decl kw = Raise e -> is_CorruptRecord e = true.
Proof.
  induction decl as [|[name dflt] decl IH]; intros e H; cbn [extra_args] in H; [discriminate|].
  destruct (match assoc name kw with Some v => Some v | None => dflt end) as [v|].
  - destruct (extra_args decl kw) as [rest|e'] eqn:Er; [discriminate|].
    injection H as <-. now apply IH.
  - now injection H as <-.
Qed.

Lemma from_json_error (c : string) (e : exn) :
  from_json c = Raise e ->
  is_CorruptRecord e = true \/ exists k, e = TypeError_field k.
Proof.
  unfold _video_metadata_from_json.
  destruct (json_loads c) as [[| | | | |raw]|]; try (intros [= <-]; now left).
  rewrite YtdlpMetadata_init_filter. unfold bind_fields, str_arg.
  destruct (assoc "video_id" _) as [[| | |v| |]|];
    try (intros [= <-]; (now left) || (right; eexists; reflexivity)).
  destruct (assoc "url" _) as [[| | |u| |]|];
    try (intros [= <-]; (now left) || (right; eexists; reflexivity)).
  destruct (assoc "title" _) as [[| | |t| |]|];
    try (intros [= <-]; (now left) || (right; eexists; reflexivity)).
  destruct (extra_args extra_fields _) as [ex|e'] eqn:Ex; [discriminate|].
  intros [= <-]. left. now apply extra_args_raise in Ex.
Qed.

(** On a document that keeps to the declared types, a failure to decode is
    one of the three kinds of corruption. *)
Lemma from_json_typed_error (c : string) (e : exn) :
  typed_text json_loads c -> from_json c = Raise e -> is_CorruptRecord e = true.
Proof.
  intros Hty H. destruct (from_json_error _ H) as [Hc|[k ->]]; [exact Hc|].
  exfalso. revert Hty H. unfold typed_text, _video_metadata_from_json.
  destruct (json_loads c) as [[| | | | |raw]|]; try discriminate.
  intros Hty. rewrite YtdlpMetadata_init_filter. unfold bind_fields, str_arg.
  assert (Hf : forall f, In f ["video_id"; "url"; "title"] ->
    assoc f (filter (fun kv => is_allowed extra_fields (fst kv)) raw) = assoc f raw).
  { intros f Hf. apply assoc_filter. intros v _. apply is_allowed_In.
    unfold allowed. destruct Hf as [<-|[<-|[<-|[]]]]; simpl; auto. }
  rewrite !Hf by (simpl; auto).
  pose proof (Hty "video_id" ltac:(simpl; auto)) as Tv.
  pose proof (Hty "url" ltac:(simpl; auto)) as Tu.
  pose proof (Hty "title" ltac:(simpl; auto)) as Tt.
  destruct (assoc "video_id" raw) as [[| | |v| |]|]; try destruct Tv; [|discriminate].
  destruct (assoc "url" raw) as [[| | |u| |]|]; try destruct Tu; [|discriminate].
  destruct (assoc "title" raw) as [[| | |t| |]|]; try destruct Tt; [|discriminate].
  destruct (extra_args extra_fields _) as [ex|e'] eqn:Ex; [discriminate|].
  intros [= ->]. now apply extra_args_raise in Ex.
Qed.

Lemma healthy_decodable (d : directory) :
  healthy json_loads extra_fields d = true <-> decodable json_loads extra_fields d.
Proof.
  rewrite healthy_spec. unfold decodable. split.
  - intros H name c mt Hin Hname.
    specialize (H name (File c mt true) Hin).
    unfold is_record_file in H. cbn [fst snd is_file] in H. rewrite Hname in H.
    specialize (H eq_refl). unfold scannable, index_entry in H. cbn [read_text] in H.
    destruct (from_json c) as [m|e] eqn:Ej; [now exists m|].
    exfalso. destruct (from_json_error _ Ej) as [Hc|[k ->]]; [|discriminate].
    now destruct e.
  - intros H name nd Hin Hrec. unfold is_record_file in Hrec. cbn [fst snd] in Hrec.
    apply andb_true_iff in Hrec as [Hname Hfile].
    destruct nd as [c mt [|]|mt]; [| reflexivity | discriminate].
    destruct (H name c mt Hin Hname) as (m & Hm).
    unfold scannable, index_entry. cbn [read_text]. rewrite Hm.
    now rewrite from_VideoMetadata_asdict.
Qed.

Lemma scan_raise_corrupt (d : directory) :
  typed_dir json_loads d ->
  forall acc e, scan d acc = Raise e -> is_CorruptRecord e = true.
Proof.
  induction d as [|[name nd] d IH]; intros Hty acc e H; [discriminate|].
  assert (Hty' : typed_dir json_loads d).
  { intros n c mt Hin. apply (Hty n c mt). now right. }
  cbn [scan_info] in H.
  destruct (ends_with ".info" name && is_file nd); [|now apply (IH Hty' acc)].
  destruct (entry_of nd) as [x|e'] eqn:Ex; [now apply (IH Hty' (acc ++ [x]))|].
  destruct (is_OSError e') eqn:Eo; [now apply (IH Hty' acc)|].
  injection H as <-.
  destruct nd as [c mt [|]|mt]; unfold index_entry in Ex; cbn [read_text] in Ex;
    try (injection Ex as <-; discriminate).
  destruct (from_json c) as [m|e0] eqn:Ej.
  - rewrite from_VideoMetadata_asdict in Ex. discriminate.
  - injection Ex as <-. apply (from_json_typed_error c); [|assumption].
    apply (Hty name c mt). now left.
Qed.

(** X1. In a directory whose documents keep to the declared types,
    [InfoManager()] succeeds exactly when every readable regular [*.info]
    file holds a record; the index it then holds is what the scan collects,
    sorted newest first.  Otherwise the constructor raises, and what it
    raises is the corruption of a record file: a JSON decode error, the
    not-an-object [ValueError], or the [TypeError] of a missing field. *)
Theorem X1_init_succeeds_iff_decodable (s : state) :
  typed_dir json_loads (cache_dir s) ->
  (fst (__init__ json_loads extra_fields s) = Ok tt <->
   decodable json_loads extra_fields (cache_dir s)) /\
  (decodable json_loads extra_fields (cache_dir s) ->
   __init__ json_loads extra_fields s =
   (Ok tt, set_index (sort_desc (readable_entries json_loads extra_fields (cache_dir s))) s)) /\
  (forall e, fst (__init__ json_loads extra_fields s) = Raise e -> is_CorruptRecord e = true).
Proof.
  intros Hty.
  assert (Hrun : __init__ json_loads extra_fields s = refresh (set_index [] s)) by reflexivity.
  rewrite Hrun. unfold refresh_index. cbn [cache_dir set_index].
  rewrite <- healthy_decodable.
  destruct (healthy json_loads extra_fields (cache_dir s)) eqn:Hh.
  - rewrite (scan_healthy _ Hh). cbn [app fst]. repeat split; discriminate.
  - destruct (scan (cache_dir s) []) as [r|e] eqn:Es.
    + apply scan_ok_healthy in Es. congruence.
    + cbn [fst]. repeat split; try discriminate.
      intros e' [= <-]. now apply (scan_raise_corrupt Hty _ Es).
Qed.

(** X2. After a successful [refresh_index] the directory is as it was, the
    index is sorted newest first, and its entries are exactly the readable
    regular [*.info] files that decode: each entry carries the modification
    time of its file and the id, url and title of the record in it. *)
Theorem X2_refresh_index_reflects_directory (s : state) :
  healthy json_loads extra_fields (cache_dir s) = true ->
  let s' := snd (refresh s) in
  fst (refresh s) = Ok tt /\
  cache_dir s' = cache_dir s /\
  newest_first (yt_source_list s') /\
  (forall e, In e (yt_source_list s') <->
             exists name c m,
               In (name, File c (fst e) true) (cache_dir s) /\
               ends_with ".info" name = true /\
               from_json c = Ok m /\ snd e = source_of m).
Proof.
  intros Hh. cbv zeta. unfold refresh_index. rewrite (scan_healthy _ Hh).
  cbn [app fst snd cache_dir set_index yt_source_list].
  repeat split.
  - apply sort_desc_sorted.
  - intros H. apply (proj1 (In_sort_desc _ _)) in H.
    now apply (proj1 (In_readable_entries _ _)).
  - intros H. apply (proj2 (In_sort_desc _ _)).
    now apply (proj2 (In_readable_entries _ _)).
Qed.

(** ** Decoding a record *)

Lemma assoc_filter_allowed (k : string) (raw : list (string * json)) :
  is_allowed extra_fields k = true ->
  assoc k (filter (fun kv => is_allowed extra_fields (fst kv)) raw) = assoc k raw.
Proof. intros Hk. apply assoc_filter. intros v _. exact Hk. Qed.

Lemma str_arg_ok (name : string) (kw : list (string * json)) (v : string) :
  str_arg name kw = Ok v -> assoc name kw = Some (JStr v).
Proof.
  unfold str_arg. destruct (assoc name kw) as [[| | |x| |]|]; try discriminate.
  now intros [= ->].
Qed.

Lemma extra_args_sound (kw : list (string * json)) :
  forall (decl : list (string * option json)) (ex : list (string * json)),
    extra_args decl kw = Ok ex ->
    map fst ex = map fst decl /\
    forall k v, In (k, v) ex ->
                assoc k kw = Some v \/ (assoc k kw = None /\ In (k, Some v) decl).
Proof.
  induction decl as [|[name dflt] decl IH]; intros ex H; cbn [extra_args] in H.
  - injection H as <-. split; [reflexivity | intros k v []].
  - destruct (assoc name kw) as [v0|] eqn:Ea.
    + destruct (extra_args decl kw) as [rest|] eqn:Er; [|discriminate].
      injection H as <-. destruct (IH rest eq_refl) as [Hk Hv]. split.
      * cbn. now rewrite Hk.
      * intros k v [[= <- <-]|Hin]; [now left|].
        destruct (Hv k v Hin) as [?|[? ?]]; [now left | right; split; [assumption | now right]].
    + destruct dflt as [v0|]; [|discriminate].
      destruct (extra_args decl kw) as [rest|] eqn:Er; [|discriminate].
      injection H as <-. destruct (IH rest eq_refl) as [Hk Hv]. split.
      * cbn. now rewrite Hk.
      * intros k v [[= <- <-]|Hin]; [right; split; [assumption | now left]|].
        destruct (Hv k v Hin) as [?|[? ?]]; [now left | right; split; [assumption | now right]].
Qed.

(** X3. What [_video_metadata_from_json] returns comes from the document:
    the text is a JSON object, it holds [video_id], [url] and [title] with
    the values of the record, the record has one value per declared field,
    and each further value is the one the object holds under that name or,
    when the object has no such key, the declared default. *)
Theorem X3_from_json_sound (text : string) (m : YtdlpMetadata.t) :
  from_json text = Ok m ->
  exists raw,
    json_loads text = Some (JObj raw) /\
    assoc "video_id" raw = Some (JStr (YtdlpMetadata.video_id m)) /\
    assoc "url" raw = Some (JStr (YtdlpMetadata.url m)) /\
    assoc "title" raw = Some (JStr (YtdlpMetadata.title m)) /\
    is_instance m /\
    forall k v, In (k, v) (YtdlpMetadata.extras m) ->
                assoc k raw = Some v \/ (assoc k raw = None /\ In (k, Some v) extra_fields).
Proof.
  unfold _video_metadata_from_json.
  destruct (json_loads text) as [[| | | | |raw]|]; try discriminate.
  rewrite YtdlpMetadata_init_filter. unfold bind_fields.
  set (kw := filter (fun kv => is_allowed extra_fields (fst kv)) raw).
  destruct (str_arg "video_id" kw) as [v|] eqn:Ev; [|discriminate].
  destruct (str_arg "url" kw) as [u|] eqn:Eu; [|discriminate].
  destruct (str_arg "title" kw) as [t|] eqn:Et; [|discriminate].
  destruct (extra_args extra_fields kw) as [ex|] eqn:Ex; [|discriminate].
  intros [= <-]. exists raw. cbn [YtdlpMetadata.video_id YtdlpMetadata.url
    YtdlpMetadata.title YtdlpMetadata.extras].
  apply str_arg_ok in Ev, Eu, Et. unfold kw in Ev, Eu, Et.
  rewrite assoc_filter_allowed in Ev, Eu, Et
    by (apply is_allowed_In; unfold allowed; simpl; auto).
  destruct (extra_args_sound _ _ Ex) as [Hk Hv].
  repeat split; try assumption.
  intros k x Hin.
  assert (Hal : is_allowed extra_fields k = true).
  { apply is_allowed_In. unfold allowed. right; right; right.
    rewrite <- Hk. change k with (fst (k, x)). now apply in_map. }
  specialize (Hv k x Hin). unfold kw in Hv. now rewrite assoc_filter_allowed in Hv.
Qed.

Lemma extra_args_missing (kw : list (string * json)) :
  forall (decl : list (string * option json)) (k : string),
    In (k, None) decl -> assoc k kw = None ->
    exists k', In (k', None) decl /\ assoc k' kw = None /\
               extra_args decl kw = Raise (TypeError_missing k').
Proof.
  induction decl as [|[name dflt] decl IH]; intros k Hin Hk; [destruct Hin|].
  cbn [extra_args].
  destruct (assoc name kw) as [v0|] eqn:Ea.
  - destruct Hin as [[= -> ->]|Hin]; [congruence|].
    destruct (IH k Hin Hk) as (k' & Hin' & Hk' & ->).
    exists k'. split; [now right|]. now split.
  - destruct dflt as [v0|].
    + destruct Hin as [Habs|Hin]; [discriminate|].
      destruct (IH k Hin Hk) as (k' & Hin' & Hk' & ->).
      exists k'. split; [now right|]. now split.
    + exists name. split; [now left|]. now split.
Qed.

Lemma In_required (k : string) :
  In k (required extra_fields) <->
  k = "video_id" \/ k = "url" \/ k = "title" \/ In (k, None) extra_fields.
Proof.
  unfold required. cbn [In]. rewrite in_map_iff. split.
  - intros [<-|[<-|[<-|([k' d] & <- & Hin)]]]; auto.
    apply filter_In in Hin as [Hin Hd]. cbn in Hd. destruct d; [discriminate|].
    now repeat right.
  - intros [->|[->|[->|Hin]]]; auto.
    repeat right. exists (k, None). split; [reflexivity|]. now apply filter_In.
Qed.

(** X4. A document that is a JSON object but lacks a field the dataclass
    has no default for is not given one: [_video_metadata_from_json] raises
    the [TypeError] of the constructor, naming a required field the object
    does not hold. *)
Theorem X4_from_json_missing_field (text : string) (raw : list (string * json)) :
  json_loads text = Some (JObj raw) ->
  well_typed raw ->
  (exists k, In k (required extra_fields) /\ assoc k raw = None) ->
  exists k, In k (required extra_fields) /\ assoc k raw = None /\
            from_json text = Raise (TypeError_missing k).
Proof.
  intros Hl Hty (k & Hreq & Hk).
  unfold _video_metadata_from_json. rewrite Hl.
  rewrite YtdlpMetadata_init_filter. unfold bind_fields, str_arg.
  rewrite !assoc_filter_allowed by (apply is_allowed_In; unfold allowed; simpl; auto).
  pose proof (Hty "video_id" ltac:(simpl; auto)) as Tv.
  pose proof (Hty "url" ltac:(simpl; auto)) as Tu.
  pose proof (Hty "title" ltac:(simpl; auto)) as Tt.
  destruct (assoc "video_id" raw) as [[| | |v| |]|] eqn:Ev; try destruct Tv;
    [|exists "video_id"; repeat split; [apply In_required; auto | assumption]].
  destruct (assoc "url" raw) as [[| | |u| |]|] eqn:Eu; try destruct Tu;
    [|exists "url"; repeat split; [apply In_required; auto | assumption]].
  destruct (assoc "title" raw) as [[| | |t| |]|] eqn:Et; try destruct Tt;
    [|exists "title"; repeat split; [apply In_required; auto | assumption]].
  apply In_required in Hreq as [->|[->|[->|Hin]]]; try congruence.
  assert (Hal : forall x d, In (x, d) extra_fields ->
                 assoc x (filter (fun kv => is_allowed extra_fields (fst kv)) raw) = assoc x raw).
  { intros x d Hx. apply assoc_filter_allowed, is_allowed_In. unfold allowed.
    right; right; right. change x with (fst (x, d)). now apply in_map. }
  destruct (extra_args_missing (filter (fun kv => is_allowed extra_fields (fst kv)) raw)
              extra_fields k Hin) as (k' & Hin' & Hk' & ->).
  { now rewrite (Hal k None). }
  exists k'. rewrite (Hal k' None) in Hk' by assumption.
  repeat split; [apply In_required; auto | assumption].
Qed.

(** ** More on sorting *)

Lemma newest_first_cons {A} (x : Z * A) (l : list (Z * A)) :
  (forall y, In y l -> fst y <= fst x) -> newest_first l -> newest_first (x :: l).
Proof.
  intros Hle Hl. cbn [newest_first]. split; [|assumption].
  destruct l as [|y l]; [exact I|]. apply Hle. now left.
Qed.

Lemma newest_first_le {A} (l : list (Z * A)) :
  forall x, newest_first (x :: l) -> forall y, In y l -> fst y <= fst x.
Proof.
  induction l as [|z l IH]; intros x H y Hin; [destruct Hin|].
  destruct H as [Hzx Hzl]. destruct Hin as [<-|Hin]; [assumption|].
  specialize (IH z Hzl y Hin). lia.
Qed.

Lemma filter_sorted {A} (p : Z * A -> bool) (l : list (Z * A)) :
  newest_first l -> newest_first (filter p l).
Proof.
  induction l as [|x l IH]; intros H; [exact I|].
  cbn [filter]. pose proof (newest_first_le H) as Hle. destruct H as [_ Hl].
  destruct (p x); [|now apply IH].
  apply newest_first_cons; [|now apply IH].
  intros y Hy. apply filter_In in Hy as [Hy _]. now apply Hle.
Qed.

Lemma length_filter_insert {A} (p : Z * A -> bool) (x : Z * A) (l : list (Z * A)) :
  length (filter p (insert_desc x l)) = length (filter p (x :: l)).
Proof.
  induction l as [|y l IH]; [reflexivity|].
  cbn [insert_desc]. destruct (fst x <? fst y); [|reflexivity].
  cbn [filter] in *. destruct (p y), (p x); cbn [length] in *; lia.
Qed.

Lemma length_filter_sort {A} (p : Z * A -> bool) (l : list (Z * A)) :
  length (filter p (sort_desc l)) = length (filter p l).
Proof.
  induction l as [|x l IH]; [reflexivity|].
  change (sort_desc (x :: l)) with (insert_desc x (sort_desc l)).
  rewrite length_filter_insert. cbn [filter]. destruct (p x); cbn [length]; now rewrite IH.
Qed.

Lemma length_sort_desc {A} (l : list (Z * A)) : length (sort_desc l) = length l.
Proof.
  pose proof (length_filter_sort (fun _ => true) l) as H.
  now rewrite !filter_true in H.
Qed.

(** ** [_prepend_to_index] *)

(** X5. When the record file of the entry exists, [_prepend_to_index]
    returns normally, leaves the directory alone and leaves an index that is
    sorted newest first, holds the new entry stamped with the file's
    modification time, holds exactly one entry of that id, and holds the
    entries of every other id as before. *)
Theorem X5_prepend_to_index (s : state) (yt_source : YouTubeSource.t) (mt : Z) :
  stat_mtime (info_path_for (YouTubeSource.id yt_source)) (cache_dir s) = Ok mt ->
  let s' := snd (prepend yt_source s) in
  let same_id e := (YouTubeSource.id (snd e) =? YouTubeSource.id yt_source)%string in
  fst (prepend yt_source s) = Ok tt /\
  cache_dir s' = cache_dir s /\
  newest_first (yt_source_list s') /\
  In (mt, yt_source) (yt_source_list s') /\
  length (filter same_id (yt_source_list s')) = 1%nat /\
  (forall e, same_id e = false -> (In e (yt_source_list s') <-> In e (yt_source_list s))).
Proof.
  intros Hstat. cbv zeta. unfold _prepend_to_index. rewrite Hstat.
  cbn [fst snd cache_dir set_index yt_source_list].
  split; [reflexivity|]. split; [reflexivity|].
  split; [|split; [|split; [|intros e He; split]]].
  - apply sort_desc_sorted.
  - apply (proj2 (In_sort_desc _ _)). now left.
  - rewrite length_filter_sort. cbn [filter snd]. rewrite String.eqb_refl. cbn [length].
    f_equal. apply length_zero_iff_nil.
    induction (yt_source_list s) as [|e ix IH]; [reflexivity|].
    cbn [filter]. destruct (YouTubeSource.id (snd e) =? YouTubeSource.id yt_source)%string eqn:E;
      cbn [negb filter]; [exact IH | now rewrite E].
  - intros H. apply (proj1 (In_sort_desc _ _)) in H. destruct H as [<-|H].
    + cbn [snd] in He. rewrite String.eqb_refl in He. discriminate.
    + now apply filter_In in H.
  - intros H. apply (proj2 (In_sort_desc _ _)). right. apply filter_In.
    split; [assumption|]. now apply negb_true_iff.
Qed.

(** ** [crop_cache] and the directory *)

Lemma filter_filter {A} (p q : A -> bool) (l : list A) :
  filter q (filter p l) = filter (fun x => p x && q x) l.
Proof.
  induction l as [|x l IH]; [reflexivity|].
  cbn [filter]. destruct (p x); cbn [filter andb]; [destruct (q x)|]; now rewrite IH.
Qed.

Lemma for_each_cleanup_dir (l : list (Z * YouTubeSource.t)) (s : state) :
  exists s',
    for_each l (fun e =>
      try_except
        (remove_stale_files_for_video_id (PyStr (YouTubeSource.id (snd e))) None)
        any_Exception (fun _ => ret tt)) s = (Ok tt, s')
    /\ cache_dir s' =
       filter (fun e => negb (artifact_of (map (fun x => YouTubeSource.id (snd x)) l) e))
              (cache_dir s).
Proof.
  revert s; induction l as [|x l IH]; intros s.
  - exists s. split; [reflexivity|]. cbn [for_each map].
    rewrite (filter_ext _ (fun _ => true)); [now rewrite filter_true|].
    intros e. unfold artifact_of. cbn. now rewrite andb_false_r.
  - cbn [for_each]. unfold bind at 1, try_except at 1. rewrite remove_stale_run.
    match goal with |- context [for_each l _ ?st] => destruct (IH st) as (s' & -> & Hd) end.
    exists s'. split; [reflexivity|]. rewrite Hd.
    cbn [cache_dir set_index set_dir py_format]. unfold purge. rewrite filter_filter.
    apply filter_ext. intros e. unfold is_stale, artifact_of. cbn [map existsb].
    destruct (is_file (snd e)), (starts_with (YouTubeSource.id (snd x) ++ ".") (fst e));
      reflexivity.
Qed.

(** X6. [crop_cache] with a negative count raises [ValueError] and
    changes nothing.  With a count [n >= 0] it returns normally, keeps the
    [n] newest index entries (all of them when there are fewer) in
    newest-first order, and leaves in the directory exactly the entries
    that are not artifacts of a dropped id: every regular file named
    [<id>.*] for a dropped [id] is removed, nothing else is, and the
    listing order is kept. *)
Theorem X6_crop_cache_effect (s : state) (n : Z) :
  (n < 0 -> crop_cache n s = (Raise ValueError_negative, s)) /\
  (0 <= n ->
   let s' := snd (crop_cache n s) in
   fst (crop_cache n s) = Ok tt /\
   length (yt_source_list s') = Nat.min (Z.to_nat n) (length (yt_source_list s)) /\
   newest_first (yt_source_list s') /\
   cache_dir s' =
   filter (fun e => negb (artifact_of (map (fun x => YouTubeSource.id (snd x)) (dropped n s)) e))
          (cache_dir s)).
Proof.
  split.
  - intros Hn. unfold crop_cache. destruct (Z.ltb_spec n 0); [reflexivity | lia].
  - intros Hn. cbv zeta.
    assert (Hrun : exists s',
               crop_cache n s =
               (Ok tt, set_index (firstn (Z.to_nat n) (sort_desc (yt_source_list s))) s') /\
               cache_dir s' =
               filter (fun e => negb (artifact_of
                                        (map (fun x => YouTubeSource.id (snd x)) (dropped n s)) e))
                      (cache_dir s)).
    { unfold crop_cache. destruct (Z.ltb_spec n 0); [lia|].
      unfold bind at 1, modify at 1. unfold bind at 1, get at 1.
      cbn [yt_source_list set_index]. unfold bind at 1.
      destruct (for_each_cleanup_dir (skipn (Z.to_nat n) (sort_desc (yt_source_list s)))
                  (set_index (sort_desc (yt_source_list s)) s)) as (s' & -> & Hd).
      exists s'. split; [reflexivity | exact Hd]. }
    destruct Hrun as (s' & -> & Hd).
    cbn [fst snd set_index yt_source_list cache_dir].
    split; [reflexivity|]. split; [|split].
    + now rewrite length_firstn, length_sort_desc.
    + apply firstn_sorted, sort_desc_sorted.
    + exact Hd.
Qed.

(** ** [cache_VideoMetadata], whichever way the id is found *)

Lemma filter_same_other_nil (v : string) (ix : list (Z * YouTubeSource.t)) :
  filter (fun e => (YouTubeSource.id (snd e) =? v)%string)
         (filter (fun e => negb (YouTubeSource.id (snd e) =? v)%string) ix) = [].
Proof.
  induction ix as [|e ix IH]; [reflexivity|].
  cbn [filter]. destruct (YouTubeSource.id (snd e) =? v)%string eqn:E;
    cbn [negb filter]; [exact IH | now rewrite E].
Qed.

Lemma sort_desc_head {A} (x : Z * A) (l : list (Z * A)) :
  (forall e, In e l -> fst e <= fst x) -> sort_desc (x :: l) = x :: sort_desc l.
Proof.
  intros Hle. change (sort_desc (x :: l)) with (insert_desc x (sort_desc l)).
  apply insert_desc_head, newest_first_cons; [|apply sort_desc_sorted].
  intros y Hy. apply Hle. now apply (proj1 (In_sort_desc _ _)).
Qed.

Lemma set_video_id_same (m : YtdlpMetadata.t) :
  YtdlpMetadata.set_video_id (YtdlpMetadata.video_id m) m = m.
Proof. now destruct m. Qed.

(** The state a successful [cache_VideoMetadata] leaves; [pv] is the value
    its [video_id] variable holds when the cleanup is called. *)
Lemma store_resolved (m : YtdlpMetadata.t) (s : state) (v : string) :
  resolved_id extract_video_id m = Some v ->
  tmp_available (tmp_pool s) (cache_dir s) = true ->
  (forall mt, assoc (info_path_for v) (cache_dir s) <> Some (Dir mt)) ->
  let m' := YtdlpMetadata.set_video_id v m in
  exists pv,
    (pv = PyBool false \/ pv = PyStr v) /\
    store m s =
    (Ok m',
     mkState (upsert (info_path_for v) (File (to_json m') (now s) true)
                     (purge (py_format pv ++ ".") (Some (info_path_for v)) (cache_dir s)))
             (now s) (tmp_pool s) (provider_log s)
             (sort_desc ((now s, source_of m')
                           :: filter (fun e => negb (YouTubeSource.id (snd e) =? v)%string)
                                (filter (fun e => str_ne (YouTubeSource.id (snd e)) pv)
                                        (yt_source_list s))))).
Proof.
  intros Hres Hav Hdir m'. unfold resolved_id in Hres.
  destruct (extract_video_id (YtdlpMetadata.video_id m)) as [x|] eqn:Ex.
  1: destruct (x =? YtdlpMetadata.video_id m)%string eqn:Exm.
  - (* the record's id is canonical *)
    apply String.eqb_eq in Exm. subst x. injection Hres as <-.
    exists (PyBool false). split; [now left|]. unfold m'. rewrite set_video_id_same.
    rewrite store_canonical by assumption. now rewrite filter_str_ne_bool.
  - (* the resolver makes something else of the id *)
    exists (PyStr v). split; [now right|]. unfold cache_VideoMetadata. cbv zeta.
    rewrite Ex, Exm, Hres. cbn [negb].
    unfold bind at 1, ret at 1. cbv iota beta.
    unfold bind at 1. rewrite remove_stale_run.
    unfold bind at 1. rewrite atomic_write_ok;
      [ | cbn [cache_dir set_dir set_index tmp_pool]; now apply tmp_available_purge
        | cbn [cache_dir set_dir set_index]; intros mt; rewrite assoc_purge_keep; apply Hdir ].
    cbn [cache_dir set_dir set_index now tmp_pool provider_log yt_source_list].
    unfold bind at 1, lift at 1. rewrite from_VideoMetadata_asdict.
    unfold bind at 1, _prepend_to_index.
    cbn [cache_dir set_dir set_index now tmp_pool provider_log yt_source_list source_of
         YouTubeSource.id YtdlpMetadata.video_id YtdlpMetadata.set_video_id].
    unfold stat_mtime. rewrite assoc_upsert_same. reflexivity.
  - (* the resolver makes nothing of the id *)
    exists (PyStr v). split; [now right|]. unfold cache_VideoMetadata. cbv zeta.
    rewrite Ex, Hres.
    unfold bind at 1, ret at 1. cbv iota beta.
    unfold bind at 1. rewrite remove_stale_run.
    unfold bind at 1. rewrite atomic_write_ok;
      [ | cbn [cache_dir set_dir set_index tmp_pool]; now apply tmp_available_purge
        | cbn [cache_dir set_dir set_index]; intros mt; rewrite assoc_purge_keep; apply Hdir ].
    cbn [cache_dir set_dir set_index now tmp_pool provider_log yt_source_list].
    unfold bind at 1, lift at 1. rewrite from_VideoMetadata_asdict.
    unfold bind at 1, _prepend_to_index.
    cbn [cache_dir set_dir set_index now tmp_pool provider_log yt_source_list source_of
         YouTubeSource.id YtdlpMetadata.video_id YtdlpMetadata.set_video_id].
    unfold stat_mtime. rewrite assoc_upsert_same. reflexivity.
Qed.

(** X7. A record for which no id can be found (its [video_id] is not what
    the resolver makes of it, and the resolver makes nothing of its [url])
    is refused with [ValueError] before anything is touched: no file is
    purged or written and the index is as it was. *)
Theorem X7_store_unresolvable (s : state) (m : YtdlpMetadata.t) :
  resolved_id extract_video_id m = None ->
  store m s =
  (Raise (ValueError_unresolvable (YtdlpMetadata.video_id m) (YtdlpMetadata.url m)), s).
Proof.
  intros Hres. unfold resolved_id in Hres. unfold cache_VideoMetadata. cbv zeta.
  destruct (extract_video_id (YtdlpMetadata.video_id m)) as [x|].
  - destruct (x =? YtdlpMetadata.video_id m)%string; [discriminate|].
    cbn [negb]. now rewrite Hres.
  - now rewrite Hres.
Qed.

(** X8. A record whose id resolves to [v] is stored, given a free temporary
    name and a final path that is not a directory: the call returns the
    record with [video_id] set to [v]; [v.info] holds its serialisation,
    stamped with the current time; no other entry is added to the
    directory; the index is sorted newest first and holds exactly one entry
    of id [v], the new one; the provider is not consulted. *)
Theorem X8_store_postcondition (s : state) (m : YtdlpMetadata.t) (v : string) :
  resolved_id extract_video_id m = Some v ->
  tmp_available (tmp_pool s) (cache_dir s) = true ->
  (forall mt, assoc (info_path_for v) (cache_dir s) <> Some (Dir mt)) ->
  let m' := YtdlpMetadata.set_video_id v m in
  let s' := snd (store m s) in
  let new_file := File (to_json m') (now s) true in
  fst (store m s) = Ok m' /\
  assoc (info_path_for v) (cache_dir s') = Some new_file /\
  (forall e, In e (cache_dir s') -> e = (info_path_for v, new_file) \/ In e (cache_dir s)) /\
  newest_first (yt_source_list s') /\
  In (now s, source_of m') (yt_source_list s') /\
  length (filter (fun e => (YouTubeSource.id (snd e) =? v)%string) (yt_source_list s')) = 1%nat /\
  provider_log s' = provider_log s.
Proof.
  intros Hres Hav Hdir. cbv zeta.
  destruct (store_resolved m s Hres Hav Hdir) as (pv & _ & ->).
  cbn [fst snd cache_dir yt_source_list provider_log].
  split; [reflexivity|]. split; [apply assoc_upsert_same|].
  split; [|split; [|split; [|split]]].
  - intros e He. apply In_upsert in He as [->|He]; [now left|].
    right. unfold purge in He. now apply filter_In in He.
  - apply sort_desc_sorted.
  - apply (proj2 (In_sort_desc _ _)). now left.
  - rewrite length_filter_sort. cbn [filter snd source_of YouTubeSource.id
      YtdlpMetadata.set_video_id YtdlpMetadata.video_id].
    rewrite String.eqb_refl. cbn [length]. now rewrite filter_same_other_nil.
  - reflexivity.
Qed.

(** ** The newest entry *)

(** X9. What is stored is what [get_latest_metadata] then returns, as long
    as no index entry is stamped later than the clock: the newest record is
    read back from its file, equal to the record stored (with the resolved
    id), and the call changes nothing. *)
Theorem X9_latest_after_store (s : state) (m : YtdlpMetadata.t) (v : string) :
  resolved_id extract_video_id m = Some v ->
  tmp_available (tmp_pool s) (cache_dir s) = true ->
  (forall mt, assoc (info_path_for v) (cache_dir s) <> Some (Dir mt)) ->
  fields_ok -> is_instance m ->
  is_serialisable (YtdlpMetadata.set_video_id v m) ->
  (forall e, In e (yt_source_list s) -> fst e <= now s) ->
  let s' := snd (store m s) in
  get_latest_metadata json_loads extra_fields s' =
  (Ok (Some (YtdlpMetadata.set_video_id v m)), s').
Proof.
  intros Hres Hav Hdir Hd Hi Hs Hle. cbv zeta.
  destruct (store_resolved m s Hres Hav Hdir) as (pv & _ & ->). cbn [snd].
  rewrite sort_desc_head.
  2:{ intros e He. cbn [fst]. apply filter_In in He as [He _].
      apply filter_In in He as [He _]. now apply Hle. }
  unfold get_latest_metadata, get_latest_file.
  unfold bind at 1. unfold bind at 1, get at 1. cbn [yt_source_list].
  unfold ret at 1. cbn [source_of YouTubeSource.id YtdlpMetadata.set_video_id
    YtdlpMetadata.video_id].
  unfold bind at 1, get at 1. cbn [cache_dir]. unfold path_is_file.
  rewrite assoc_upsert_same. cbn [is_file].
  unfold try_except, bind at 1. unfold read_path. cbn [cache_dir].
  rewrite assoc_upsert_same. cbn [read_text].
  unfold bind at 1, lift at 1. rewrite from_json_to_json; [reflexivity | assumption | | assumption].
  exact Hi.
Qed.

Lemma get_latest_metadata_run (s : state) :
  exists o,
    get_latest_metadata json_loads extra_fields s = (Ok o, s) /\
    forall m,
      o = Some m <->
      exists mt yt_source rest c mt',
        yt_source_list s = (mt, yt_source) :: rest /\
        assoc (info_path_for (YouTubeSource.id yt_source)) (cache_dir s)
          = Some (File c mt' true) /\
        from_json c = Ok m.
Proof.
  unfold get_latest_metadata, get_latest_file.
  unfold bind at 1. unfold bind at 1, get at 1.
  destruct (yt_source_list s) as [|[mt src] rest] eqn:Eix.
  - exists None. split; [reflexivity|]. intros m. split; [discriminate|].
    intros (? & ? & ? & ? & ? & H & _). discriminate.
  - unfold ret at 1. unfold bind at 1, get at 1. unfold path_is_file.
    assert (Hno : forall (o' : option YtdlpMetadata.t) m,
               (forall c mt', assoc (info_path_for (YouTubeSource.id src)) (cache_dir s)
                                = Some (File c mt' true) -> from_json c = Ok m -> o' = Some m) ->
               (exists mt0 yt_source rest0 c mt',
                   (mt, src) :: rest = (mt0, yt_source) :: rest0 /\
                   assoc (info_path_for (YouTubeSource.id yt_source)) (cache_dir s)
                     = Some (File c mt' true) /\
                   from_json c = Ok m) -> o' = Some m).
    { intros o' m H (a & b & r' & c' & d & Hix & Hf & Hm).
      injection Hix as <- <- <-. now apply (H c' d). }
    destruct (assoc (info_path_for (YouTubeSource.id src)) (cache_dir s))
      as [[c mt' r|mt']|] eqn:Ef; cbn [is_file].
    + unfold try_except, bind at 1, read_path. rewrite Ef.
      destruct r; cbn [read_text].
      * unfold bind at 1, lift at 1.
        destruct (from_json c) as [m0|e] eqn:Ej.
        -- exists (Some m0). split; [reflexivity|]. intros m. split.
           ++ intros [= <-]. now exists mt, src, rest, c, mt'.
           ++ apply Hno. intros c' d [= <- <-] Hm. congruence.
        -- exists None. split; [reflexivity|]. intros m. split; [discriminate|].
           apply Hno. intros c' d [= <- <-] Hm. congruence.
      * exists None. split; [reflexivity|]. intros m. split; [discriminate|].
        apply Hno. intros c' d Hf. discriminate.
    + exists None. split; [reflexivity|]. intros m. split; [discriminate|].
      apply Hno. intros c' d Hf. discriminate.
    + exists None. split; [reflexivity|]. intros m. split; [discriminate|].
      apply Hno. intros c' d Hf. discriminate.
Qed.

(** X10. [get_latest_metadata] never raises and never changes the state.
    It returns a record exactly when the index is not empty and the record
    file of its first entry is a readable regular file that decodes, and the
    record is the one read from the file.  When the documents keep to the
    declared types and the call returns [None] although that file is
    readable, the file is corrupt: the error swallowed is a JSON decode
    error, the not-an-object [ValueError] or the [TypeError] of a missing
    field. *)
Theorem X10_get_latest_metadata (s : state) :
  typed_dir json_loads (cache_dir s) ->
  exists o,
    get_latest_metadata json_loads extra_fields s = (Ok o, s) /\
    (forall m,
      o = Some m <->
      exists mt yt_source rest c mt',
        yt_source_list s = (mt, yt_source) :: rest /\
        assoc (info_path_for (YouTubeSource.id yt_source)) (cache_dir s)
          = Some (File c mt' true) /\
        from_json c = Ok m) /\
    (o = None ->
     forall mt yt_source rest c mt',
       yt_source_list s = (mt, yt_source) :: rest ->
       assoc (info_path_for (YouTubeSource.id yt_source)) (cache_dir s)
         = Some (File c mt' true) ->
       exists e, from_json c = Raise e /\ is_CorruptRecord e = true).
Proof.
  intros Hty. destruct (get_latest_metadata_run s) as (o & Hrun & Hiff).
  exists o. split; [exact Hrun|]. split; [exact Hiff|].
  intros -> mt src rest c mt' Hix Hf.
  destruct (from_json c) as [m|e] eqn:Ej.
  - assert (None = Some m) as Habs; [|discriminate].
    apply Hiff. now exists mt, src, rest, c, mt'.
  - exists e. split; [reflexivity|].
    apply (from_json_typed_error c); [|exact Ej].
    apply (Hty (info_path_for (YouTubeSource.id src)) c mt'). now apply assoc_In.
Qed.

(** ** What every method keeps *)

Lemma invariant_pure {A} (P : state -> Prop) (r : state -> result A) :
  invariant P (fun s => (r s, s)).
Proof. intros s Hs. exact Hs. Qed.

Lemma invariant_modify (P : state -> Prop) (f : state -> state) :
  (forall s, P s -> P (f s)) -> invariant P (modify f).
Proof. intros Hf s Hs. now apply Hf. Qed.

Lemma invariant_bind {A B} (P : state -> Prop) (m : M A) (k : A -> M B) :
  invariant P m -> (forall a, invariant P (k a)) -> invariant P (bind m k).
Proof.
  intros Hm Hk s Hs. unfold bind. specialize (Hm s Hs).
  destruct (m s) as [[a|e] s1]; cbn [snd] in *; [now apply Hk | assumption].
Qed.

Lemma invariant_try {A} (P : state -> Prop) (m : M A) (handles : exn -> bool)
      (h : exn -> M A) :
  invariant P m -> (forall e, invariant P (h e)) -> invariant P (try_except m handles h).
Proof.
  intros Hm Hh s Hs. unfold try_except. specialize (Hm s Hs).
  destruct (m s) as [[a|e] s1]; cbn [snd] in *; [assumption|].
  destruct (handles e); [now apply Hh | assumption].
Qed.

Lemma invariant_for_each {A} (P : state -> Prop) (l : list A) (body : A -> M unit) :
  (forall x, invariant P (body x)) -> invariant P (for_each l body).
Proof.
  intros Hb. induction l as [|x l IH]; cbn [for_each].
  - apply (invariant_pure P (fun _ => Ok tt)).
  - apply invariant_bind; [apply Hb | intros _; exact IH].
Qed.

Section Frame.

(** A property of the state that survives a change of the directory, a
    sort of the index and a filtering of the index. *)
Variable P : state -> Prop.
Hypothesis P_dir : forall s d, P s -> P (set_dir d s).
Hypothesis P_sort : forall s ix, P s -> P (set_index (sort_desc ix) s).
Hypothesis P_filter : forall s p, P s -> P (set_index (filter p (yt_source_list s)) s).

Lemma frame_remove_stale (v : pyval) (keep : option string) :
  invariant P (remove_stale_files_for_video_id v keep).
Proof using P_dir P_filter.
  intros s Hs. rewrite remove_stale_run. cbn [snd].
  refine (@P_filter (set_dir _ s) _ _). now apply P_dir.
Qed.

Lemma frame_atomic_write (name text : string) : invariant P (_atomic_write_text name text).
Proof using P_dir.
  intros s Hs. unfold _atomic_write_text.
  destruct (pick_tmp (tmp_pool s) (cache_dir s)) as [tmp|]; [|exact Hs].
  destruct (run_steps (now s) (atomic_write_steps tmp name text) (cache_dir s)) as [r d'].
  cbn [snd]. now apply P_dir.
Qed.

Lemma frame_refresh : invariant P refresh.
Proof using P_sort.
  intros s Hs. unfold refresh_index.
  destruct (scan (cache_dir s) []) as [entries|e]; cbn [snd]; [now apply P_sort | exact Hs].
Qed.

Lemma frame_prepend (yt_source : YouTubeSource.t) : invariant P (prepend yt_source).
Proof using P_sort.
  intros s Hs. unfold _prepend_to_index.
  destruct (stat_mtime _ (cache_dir s)) as [mt|e]; cbn [snd];
    [now apply P_sort | now apply frame_refresh].
Qed.

Lemma frame_store (m : YtdlpMetadata.t) : invariant P (store m).
Proof using P_dir P_sort P_filter.
  unfold cache_VideoMetadata. cbv zeta. apply invariant_bind.
  - destruct (match extract_video_id (YtdlpMetadata.video_id m) with
              | Some v => negb (v =? YtdlpMetadata.video_id m)%string
              | None => true
              end).
    + destruct (truthy (extract_video_id (YtdlpMetadata.url m))) as [v|]; intros s Hs; exact Hs.
    + intros s Hs; exact Hs.
  - intros [[meta vid] pv].
    apply invariant_bind; [apply frame_remove_stale | intros _].
    apply invariant_bind; [apply frame_atomic_write | intros _].
    apply invariant_bind; [intros s Hs; exact Hs | intros yt_source].
    apply invariant_bind; [apply frame_prepend | intros _].
    intros s Hs; exact Hs.
Qed.

Lemma frame_serve_cached (info_file : string) :
  invariant P (serve_cached json_loads extra_fields info_file).
Proof using P_dir P_sort.
  unfold serve_cached. apply invariant_try; [|intros e s Hs; exact Hs].
  apply invariant_bind; [apply invariant_modify; intros s Hs; now apply P_dir | intros _].
  apply invariant_bind; [apply frame_refresh | intros _].
  apply invariant_bind; [intros s Hs; exact Hs | intros text].
  apply invariant_bind; [intros s Hs; exact Hs | intros meta].
  intros s Hs; exact Hs.
Qed.

Lemma frame_hit_loop (vid : string) (entries : list (Z * YouTubeSource.t)) :
  invariant P (hit_loop vid entries).
Proof using P_dir P_sort.
  induction entries as [|[mt yt_src] rest IH]; cbn [cached_lookup].
  - intros s Hs; exact Hs.
  - destruct (YouTubeSource.id yt_src =? vid)%string; [|exact IH].
    apply invariant_bind; [intros s Hs; exact Hs | intros present].
    destruct present; [apply frame_serve_cached | exact IH].
Qed.

(** With a property that does not look at the provider log, the lookup as
    a whole. *)
Lemma frame_lookup (url : string) :
  (forall s u, P s -> P (log_call u s)) -> invariant P (lookup url).
Proof using P_dir P_sort P_filter.
  intros P_log. unfold get_video_metadata.
  apply invariant_try; [|intros e s Hs; exact Hs].
  apply invariant_bind.
  { destruct (truthy (extract_video_id url)) as [v|]; intros s Hs; exact Hs. }
  intros vid. apply invariant_bind; [intros s Hs; exact Hs | intros ix].
  apply invariant_bind; [apply frame_hit_loop | intros [meta|]].
  - intros s Hs; exact Hs.
  - unfold _fetch_yt_dlp_metadata.
    apply invariant_bind; [apply invariant_modify; intros s Hs; now apply P_log | intros _].
    apply invariant_bind; [intros s Hs; exact Hs | intros meta].
    apply frame_store.
Qed.

End Frame.

Lemma crop_cache_run (n : Z) (s : state) :
  0 <= n ->
  exists s',
    crop_cache n s = (Ok tt, set_index (firstn (Z.to_nat n) (sort_desc (yt_source_list s))) s') /\
    provider_log s' = provider_log s.
Proof.
  intros Hn. unfold crop_cache. destruct (Z.ltb_spec n 0); [lia|].
  unfold bind at 1, modify at 1. unfold bind at 1, get at 1.
  cbn [yt_source_list set_index]. unfold bind at 1.
  destruct (for_each_cleanup (skipn (Z.to_nat n) (sort_desc (yt_source_list s)))
              (set_index (sort_desc (yt_source_list s)) s)) as (s' & -> & _ & _ & Hlog).
  exists s'. split; [reflexivity | exact Hlog].
Qed.

(** X11. The index is sorted newest first after every method, however the
    method ends: after [__init__] and [crop_cache] outright, and after
    [refresh_index], [remove_stale_files_for_video_id],
    [cache_VideoMetadata] and [get_video_metadata] whenever it was sorted
    before the call. *)
Theorem X11_index_stays_sorted :
  let sorted s := newest_first (yt_source_list s) in
  (forall s, sorted (snd (__init__ json_loads extra_fields s))) /\
  (forall n s, sorted (snd (crop_cache n s)) \/ (n < 0 /\ snd (crop_cache n s) = s)) /\
  invariant sorted refresh /\
  (forall v keep, invariant sorted (remove_stale_files_for_video_id v keep)) /\
  (forall m, invariant sorted (store m)) /\
  (forall url, invariant sorted (lookup url)).
Proof.
  cbv zeta.
  assert (Hdir : forall s d, newest_first (yt_source_list s) ->
                             newest_first (yt_source_list (set_dir d s))) by (intros; assumption).
  assert (Hsort : forall s ix, newest_first (yt_source_list s) ->
                               newest_first (yt_source_list (set_index (sort_desc ix) s)))
    by (intros; apply sort_desc_sorted).
  assert (Hfil : forall s p, newest_first (yt_source_list s) ->
                   newest_first (yt_source_list (set_index (filter p (yt_source_list s)) s)))
    by (intros; now apply filter_sorted).
  split; [|split; [|split; [|split; [|split]]]].
  - intros s. apply (@frame_refresh _ Hsort (set_index [] s)). exact I.
  - intros n s. destruct (Z.ltb_spec n 0) as [Hn|Hn].
    + right. split; [assumption|]. unfold crop_cache.
      destruct (Z.ltb_spec n 0); [reflexivity | lia].
    + left. destruct (crop_cache_run s Hn) as (s' & -> & _). cbn [snd yt_source_list set_index].
      apply firstn_sorted, sort_desc_sorted.
  - now apply frame_refresh.
  - intros v keep. now apply frame_remove_stale.
  - intros m. now apply frame_store.
  - intros url. apply frame_lookup; try assumption. intros s u H. exact H.
Qed.

(** X12. The provider is consulted by [get_video_metadata] only, at most
    once per call, and with the reference the call was given: after a
    lookup the provider log is what it was, or that followed by the url;
    [cache_VideoMetadata], [refresh_index], [crop_cache] and
    [remove_stale_files_for_video_id] leave it as it was. *)
Theorem X12_provider_calls :
  (forall url s, let s' := snd (lookup url s) in
                 provider_log s' = provider_log s \/ provider_log s' = provider_log s ++ [url]) /\
  (forall m s, provider_log (snd (store m s)) = provider_log s) /\
  (forall s, provider_log (snd (refresh s)) = provider_log s) /\
  (forall n s, provider_log (snd (crop_cache n s)) = provider_log s) /\
  (forall v keep s,
      provider_log (snd (remove_stale_files_for_video_id v keep s)) = provider_log s).
Proof.
  assert (Hframe : forall L,
             (forall s d, provider_log s = L -> provider_log (set_dir d s) = L) /\
             (forall s ix, provider_log s = L -> provider_log (set_index (sort_desc ix) s) = L) /\
             (forall s p, provider_log s = L ->
                          provider_log (set_index (filter p (yt_source_list s)) s) = L))
    by (intros L; repeat split; intros; assumption).
  assert (Hstore : forall m s, provider_log (snd (store m s)) = provider_log s).
  { intros m s. destruct (Hframe (provider_log s)) as (H1 & H2 & H3).
    now apply (@frame_store (fun s0 => provider_log s0 = provider_log s) H1 H2 H3 m). }
  split; [|split; [exact Hstore|split; [|split]]].
  - intros url s. cbv zeta.
    assert (Hl : exists r s', lookup url s = (r, s') /\
                   (provider_log s' = provider_log s \/
                    provider_log s' = provider_log s ++ [url])).
    { unfold get_video_metadata. rewrite try_except_reraise.
      unfold bind at 1.
      destruct (truthy (extract_video_id url)) as [vid|];
        [|eexists _, _; split; [reflexivity | now left]].
      unfold ret at 1. unfold bind at 1, get at 1. unfold bind at 1.
      destruct (Hframe (provider_log s)) as (H1 & H2 & H3).
      pose proof (@frame_hit_loop (fun s0 => provider_log s0 = provider_log s) H1 H2
                    vid (yt_source_list s) s eq_refl) as Hloop.
      destruct (hit_loop vid (yt_source_list s) s) as [[[meta|]|e] s1]; cbn [snd] in Hloop.
      - eexists _, _; split; [reflexivity | now left].
      - unfold _fetch_yt_dlp_metadata.
        unfold bind at 1, modify at 1. unfold bind at 1, lift at 1.
        destruct (provider url) as [meta|e].
        + pose proof (Hstore meta (log_call url s1)) as Hst.
          destruct (store meta (log_call url s1)) as [r s2]. cbn [snd] in Hst.
          eexists _, _; split; [reflexivity | right].
          rewrite Hst. cbn [provider_log log_call]. now rewrite Hloop.
        + eexists _, _; split; [reflexivity | right].
          cbn [provider_log log_call]. now rewrite Hloop.
      - eexists _, _; split; [reflexivity | now left]. }
    destruct Hl as (r & s' & -> & H). exact H.
  - intros s. destruct (Hframe (provider_log s)) as (_ & H2 & _).
    now apply (@frame_refresh (fun s0 => provider_log s0 = provider_log s) H2).
  - intros n s. destruct (Z.ltb_spec n 0) as [Hn|Hn].
    + unfold crop_cache. destruct (Z.ltb_spec n 0); [reflexivity | lia].
    + destruct (crop_cache_run s Hn) as (s' & -> & Hlog). exact Hlog.
  - intros v keep s. now rewrite remove_stale_run.
Qed.

(** ** Lookups that are served, and lookups that are not *)

Lemma hit_loop_no_file (vid : string) (ix : list (Z * YouTubeSource.t)) (s : state) :
  path_is_file (info_path_for vid) (cache_dir s) = false ->
  hit_loop vid ix s = (Ok None, s).
Proof.
  intros Hp. induction ix as [|[mt src] ix IH]; cbn [cached_lookup]; [reflexivity|].
  destruct (YouTubeSource.id src =? vid)%string eqn:E; [|exact IH].
  apply String.eqb_eq in E. rewrite E.
  unfold bind at 1, get at 1. now rewrite Hp.
Qed.

(** X13. The cache serves a record only when the index lists the id and
    its record file is a regular file.  When the index does not list the id
    (whatever is on disk), or lists it while the file is gone, the lookup is
    exactly a fetch from the provider; and when the provider then fails,
    its exception is what the lookup raises, with no change to the
    directory or the index. *)
Theorem X13_lookup_falls_back (s : state) (url vid : string) :
  truthy (extract_video_id url) = Some vid ->
  has_id vid (yt_source_list s) = false \/
  path_is_file (info_path_for vid) (cache_dir s) = false ->
  lookup url s = fetch url s /\
  (forall e, provider url = Raise e -> lookup url s = (Raise e, log_call url s)).
Proof.
  intros Hvid Hno.
  assert (Hl : lookup url s = fetch url s).
  { enter_lookup Hvid.
    destruct Hno as [H|H]; [now rewrite hit_loop_miss | now rewrite hit_loop_no_file]. }
  split; [exact Hl|]. intros e He. rewrite Hl. now enter_fetch He.
Qed.

Lemma serve_cached_decodes (s : state) (name c : string) (m : YtdlpMetadata.t) (mt : Z) :
  assoc name (cache_dir s) = Some (File c mt true) ->
  from_json c = Ok m ->
  healthy json_loads extra_fields (cache_dir s) = true ->
  let d' := touch name (now s) (cache_dir s) in
  serve_cached json_loads extra_fields name s =
  (Ok (Some m),
   set_index (sort_desc (readable_entries json_loads extra_fields d')) (set_dir d' s)).
Proof.
  intros Hfile Hdec Hh d'.
  unfold serve_cached, try_except.
  unfold bind at 1, modify at 1. unfold bind at 1, refresh_index at 1.
  cbn [cache_dir set_dir]. fold d'.
  rewrite (scan_healthy d') by (now apply healthy_touch).
  cbn [app]. unfold bind at 1. cbn [cache_dir set_dir set_index].
  unfold read_path. unfold d' at 1.
  rewrite assoc_touch, String.eqb_refl, Hfile. cbn [read_text].
  unfold bind at 1, lift at 1. now rewrite Hdec.
Qed.

(** X14. A hit: the index lists the id, its record file is readable and
    decodes to [m], and every record file of the directory scans.  The
    lookup returns [m], the record in the file; the provider is not
    consulted; no file changes but for the modification time of the record
    file, set to the current time; and the index is rebuilt from the
    directory, with the entry of [m] stamped with the current time. *)
Theorem X14_lookup_hit (s : state) (url vid c : string) (m : YtdlpMetadata.t) (mt : Z) :
  truthy (extract_video_id url) = Some vid ->
  has_id vid (yt_source_list s) = true ->
  assoc (info_path_for vid) (cache_dir s) = Some (File c mt true) ->
  from_json c = Ok m ->
  healthy json_loads extra_fields (cache_dir s) = true ->
  let s' := snd (lookup url s) in
  fst (lookup url s) = Ok m /\
  provider_log s' = provider_log s /\
  cache_dir s' = touch (info_path_for vid) (now s) (cache_dir s) /\
  yt_source_list s' = sort_desc (readable_entries json_loads extra_fields (cache_dir s')) /\
  In (now s, source_of m) (yt_source_list s').
Proof.
  intros Hvid Hid Hfile Hdec Hh.
  assert (Hl : lookup url s =
               (Ok m,
                let d' := touch (info_path_for vid) (now s) (cache_dir s) in
                set_index (sort_desc (readable_entries json_loads extra_fields d'))
                          (set_dir d' s))).
  { enter_lookup Hvid.
    rewrite hit_loop_hit; [|assumption|unfold path_is_file; now rewrite Hfile].
    now rewrite (serve_cached_decodes s _ Hfile Hdec Hh). }
  cbv zeta. rewrite Hl. cbn [fst snd provider_log cache_dir yt_source_list set_index set_dir].
  repeat split.
  apply (proj2 (In_sort_desc _ _)), (proj2 (In_readable_entries _ _)).
  exists (info_path_for vid), c, m. cbn [fst snd].
  repeat split; [|apply info_path_is_record|assumption].
  apply assoc_In. rewrite assoc_touch, String.eqb_refl, Hfile. reflexivity.
Qed.

(** ** When the write cannot finish *)

(** X15. When the final path is a directory, [_atomic_write_text] raises
    [IsADirectoryError] at the rename: the directory under the final path
    is untouched, and the temporary file, created with [delete=False] and
    by then holding the complete text, stays in the cache directory. *)
Theorem X15_atomic_write_onto_directory (s : state) (name text tmp : string) (mt : Z) :
  pick_tmp (tmp_pool s) (cache_dir s) = Some tmp ->
  assoc name (cache_dir s) = Some (Dir mt) ->
  _atomic_write_text name text s =
  (Raise (OSError "IsADirectoryError"),
   set_dir (cache_dir s ++ [(tmp, File text (now s) true)]) s).
Proof.
  intros Hpick Hdir. pose proof (pick_tmp_free _ _ Hpick) as Hfree.
  assert (Hne : (tmp =? name)%string = false).
  { apply String.eqb_neq. intros ->. congruence. }
  unfold _atomic_write_text. rewrite Hpick.
  unfold atomic_write_steps, write_chunks.
  cbn [run_steps run_step]. rewrite Hfree.
  rewrite (run_write_chunks (now s) tmp [Replace tmp name] (cache_dir s) Hfree).
  cbn [run_steps run_step append]. rewrite string_of_list_ascii_of_string.
  rewrite assoc_app, Hfree. cbn [assoc]. rewrite String.eqb_refl, Hne.
  rewrite assoc_app, Hdir. reflexivity.
Qed.

(** ** What the front ends list *)

(** X16. After a record is stored, both listings show it: its url is among
    [get_cached_urls] and its title and url among [get_cached_prompts];
    the two listings have one item per index entry and the same urls in the
    same order; the videos of other ids are still listed; and when no index
    entry is stamped later than the clock, the stored record comes first. *)
Theorem X16_listed_after_store (s : state) (m : YtdlpMetadata.t) (v : string) :
  resolved_id extract_video_id m = Some v ->
  tmp_available (tmp_pool s) (cache_dir s) = true ->
  (forall mt, assoc (info_path_for v) (cache_dir s) <> Some (Dir mt)) ->
  let s' := snd (store m s) in
  exists urls prompts,
    get_cached_urls s' = (Ok urls, s') /\
    get_cached_prompts s' = (Ok prompts, s') /\
    map PromptChoice.url prompts = urls /\
    length urls = length (yt_source_list s') /\
    In (YtdlpMetadata.url m) urls /\
    In (PromptChoice.make (YtdlpMetadata.title m) (YtdlpMetadata.url m)) prompts /\
    (forall e, In e (yt_source_list s) -> YouTubeSource.id (snd e) <> v ->
               In (YouTubeSource.url (snd e)) urls) /\
    ((forall e, In e (yt_source_list s) -> fst e <= now s) ->
     hd_error urls = Some (YtdlpMetadata.url m)).
Proof.
  intros Hres Hav Hdir. cbv zeta.
  destruct (store_resolved m s Hres Hav Hdir) as (pv & Hpv & ->). cbn [snd].
  match goal with |- context [get_cached_urls ?st] => set (s' := st) end.
  exists (map (fun e => YouTubeSource.url (snd e)) (yt_source_list s')),
         (map (fun e => PromptChoice.make (YouTubeSource.title (snd e))
                                          (YouTubeSource.url (snd e))) (yt_source_list s')).
  assert (Hnew : In (now s, source_of (YtdlpMetadata.set_video_id v m)) (yt_source_list s')).
  { unfold s'. cbn [yt_source_list]. apply (proj2 (In_sort_desc _ _)). now left. }
  split; [reflexivity|]. split; [reflexivity|].
  split; [now rewrite map_map|]. split; [apply length_map|].
  split; [|split; [|split]].
  - apply (in_map (fun e => YouTubeSource.url (snd e))) in Hnew. exact Hnew.
  - apply (in_map (fun e => PromptChoice.make (YouTubeSource.title (snd e))
                                              (YouTubeSource.url (snd e)))) in Hnew.
    exact Hnew.
  - intros e He Hne. apply (in_map (fun e => YouTubeSource.url (snd e))).
    unfold s'. cbn [yt_source_list]. apply (proj2 (In_sort_desc _ _)). right.
    apply filter_In. split; [|now apply negb_true_iff, String.eqb_neq].
    apply filter_In. split; [assumption|].
    destruct Hpv as [->| ->]; [reflexivity|].
    cbn [str_ne]. now apply negb_true_iff, String.eqb_neq.
  - intros Hle. unfold s'. cbn [yt_source_list]. rewrite sort_desc_head; [reflexivity|].
    intros e He. cbn [fst]. apply filter_In in He as [He _].
    apply filter_In in He as [He _]. now apply Hle.
Qed.

(** ** File names *)

(** X17. [info_path_for] gives each id a record file of its own: two ids
    share a path only when they are equal; and the path is one the scan of
    [refresh_index] takes for a record ([*.info]) and the cleanup for that
    id, asked to keep it, spares. *)
Theorem X17_info_path_for (a b : string) (nd : node) :
  (info_path_for a = info_path_for b <-> a = b) /\
  ends_with ".info" (info_path_for a) = true /\
  starts_with (a ++ ".") (info_path_for a) = true /\
  is_stale (a ++ ".") (Some (info_path_for a)) (info_path_for a, nd) = false.
Proof.
  split; [split; [apply info_path_for_inj | now intros ->]|].
  split; [apply info_path_is_record|]. split; [|apply is_stale_kept].
  unfold starts_with, info_path_for.
  induction a as [|ch a IH]; [reflexivity|].
  cbn. destruct (ascii_dec ch ch) as [_|Hne]; [exact IH | now destruct Hne].
Qed.

End Facts.

(** * Closed instances

    The statements above, at the reference instances and the cache states of
    [Run]. *)

Lemma C1_stale_artifact_survives_witness :
  exists s',
    Run.cache_VideoMetadata (Fixture.record "v1") Run.with_legacy = (Ok (Fixture.record "v1"), s') /\
    assoc "v1.info" (cache_dir s') = Some (File (Fixture.text_of "v1") 10 true) /\
    assoc "v1.legacy" (cache_dir s') = Some (File "old" 3 true).
Proof.
  apply (@C1_stale_artifact_survives Fixture.extract_video_id MiniJson.dumps MiniJson.loads
           Fixture.extra_fields Run.with_legacy (Fixture.record "v1") "v1.legacy"
           (File "old" 3 true)).
  - reflexivity.
  - reflexivity.
  - intros mt. discriminate.
  - reflexivity.
  - reflexivity.
  - discriminate.
  - reflexivity.
Defined.

(** The other path of [cache_VideoMetadata], where [video_id] is rebound to
    the id extracted from the url, does purge the artifact. *)
Example store_by_url_purges :
  exists s',
    Run.cache_VideoMetadata (Fixture.record_by_url "v1") Run.with_legacy
      = (Ok (Fixture.record "v1"), s') /\
    assoc "v1.legacy" (cache_dir s') = None /\
    assoc "v1.info" (cache_dir s') = Some (File (Fixture.text_of "v1") 10 true).
Proof. eexists. split; [vm_compute; reflexivity | split; reflexivity]. Qed.

(** C2, the claim as stated fails: [v1.info] holds an invalid encoding, and
    the lookup of a reference to [v1] returns the provider's record instead
    of raising a corruption error. *)
Lemma C2_counterexample :
  let url := "https://youtu.be/v1" in
  assoc (info_path_for "v1") (cache_dir Run.corrupted) = Some (File "{not json" 5 true) /\
  invalid_encoding MiniJson.loads "{not json" = true /\
  truthy (Fixture.extract_video_id url) = Some "v1" /\
  fst (Run.get_video_metadata url Run.corrupted) = Ok (Fixture.record "v1") /\
  ~ (exists e, fst (Run.get_video_metadata url Run.corrupted) = Raise e /\
               is_CorruptRecord e = true).
Proof.
  cbv zeta. repeat split; try (vm_compute; reflexivity).
  intros (e & He & _). vm_compute in He. discriminate He.
Qed.

Lemma C2_corrupt_record_falls_back_witness :
  let url := "https://youtu.be/v1" in
  exists s',
    Run.get_video_metadata url Run.corrupted = (Ok (Fixture.record "v1"), s') /\
    assoc "v1.info" (cache_dir s') = Some (File (Fixture.text_of "v1") 10 true) /\
    provider_log s' = [url].
Proof.
  cbv zeta.
  destruct (@C2_corrupt_record_falls_back Fixture.extract_video_id MiniJson.dumps
              MiniJson.loads Fixture.extra_fields Fixture.provider
              Run.corrupted "https://youtu.be/v1" "v1" "{not json" 5
              eq_refl eq_refl eq_refl) as (_ & _ & H).
  apply (H (Fixture.record "v1")); reflexivity.
Defined.

(** C3, the claim as stated fails: [good.info] is readable and decodes, and
    still the scan returns nothing, because [bad.info] is malformed. *)
Lemma C3_counterexample :
  index_entry MiniJson.loads Fixture.extra_fields (File (Fixture.text_of "good") 7 true)
    = Ok (7, Fixture.source "good") /\
  Run.refresh_index Run.one_bad_file = (Raise JSONDecodeError, Run.one_bad_file) /\
  ~ (exists s', Run.refresh_index Run.one_bad_file = (Ok tt, s')).
Proof.
  repeat split; try (vm_compute; reflexivity).
  intros (s' & H). vm_compute in H. discriminate H.
Qed.

Lemma C3_scan_skips_only_os_errors_witness :
  Run.refresh_index Run.one_locked_file
    = (Ok tt, set_index [(7, Fixture.source "good")] Run.one_locked_file) /\
  exists e, Run.refresh_index Run.one_bad_file = (Raise e, Run.one_bad_file) /\
            is_OSError e = false.
Proof.
  split.
  - apply (proj1 (@C3_scan_skips_only_os_errors MiniJson.loads Fixture.extra_fields
                    Run.one_locked_file)).
    reflexivity.
  - destruct (@C3_scan_skips_only_os_errors MiniJson.loads Fixture.extra_fields
                Run.one_bad_file) as (_ & _ & H).
    apply (H "bad.info" "{not json" 5 JSONDecodeError); reflexivity.
Defined.

(** C4, the claim as stated fails: the reference is unseen, the first
    lookup calls the provider once and writes [zz.info]; but [bad.info], a
    record file of another video, is malformed, so the [refresh_index] of
    the second lookup raises, the lookup falls back, and the provider is
    called a second time. *)
Lemma C4_counterexample :
  let url := "https://youtu.be/zz" in
  let s := Run.one_bad_file in
  let s1 := snd (Run.get_video_metadata url s) in
  let s2 := snd (Run.get_video_metadata url s1) in
  truthy (Fixture.extract_video_id url) = Some "zz" /\
  has_id "zz" (yt_source_list s) = false /\
  assoc (info_path_for "zz") (cache_dir s) = None /\
  fst (Run.get_video_metadata url s) = Ok (Fixture.record "zz") /\
  provider_log s1 = [url] /\
  assoc (info_path_for "zz") (cache_dir s1) = Some (File (Fixture.text_of "zz") 10 true) /\
  has_id "zz" (yt_source_list s1) = true /\
  fst (Run.get_video_metadata url s1) = Ok (Fixture.record "zz") /\
  provider_log s2 = [url; url] /\
  provider_log s2 <> provider_log s1.
Proof.
  cbv zeta. repeat split; try (vm_compute; reflexivity).
  intros H. vm_compute in H. discriminate H.
Qed.

Lemma C4_miss_then_hit_witness :
  let url := "https://youtu.be/zz" in
  let s1 := snd (Run.get_video_metadata url Run.empty) in
  let s2 := snd (Run.get_video_metadata url s1) in
  fst (Run.get_video_metadata url Run.empty) = Ok (Fixture.record "zz") /\
  provider_log s1 = [url] /\
  cache_dir s1 = [("zz.info", File (Fixture.text_of "zz") 0 true)] /\
  fst (Run.get_video_metadata url s1) = Ok (Fixture.record "zz") /\
  provider_log s2 = [url] /\
  cache_dir s2 = cache_dir s1.
Proof.
  apply (@C4_miss_then_hit Fixture.extract_video_id MiniJson.dumps MiniJson.loads
           Fixture.extra_fields Fixture.provider
           Run.empty "https://youtu.be/zz" "zz" (Fixture.record "zz"));
    reflexivity.
Defined.

Lemma C5_recency_order_witness :
  let s1 := snd (Run.cache_VideoMetadata (Fixture.record "A") (set_now 1 Run.empty)) in
  let s2 := snd (Run.cache_VideoMetadata (Fixture.record "B") (set_now 2 s1)) in
  let s3 := snd (Run.cache_VideoMetadata (Fixture.record "C") (set_now 3 s2)) in
  let r4 := Run.get_video_metadata "https://youtu.be/A" (set_now 4 s3) in
  yt_source_list s3
    = [(3, Fixture.source "C"); (2, Fixture.source "B"); (1, Fixture.source "A")] /\
  fst r4 = Ok (Fixture.record "A") /\
  yt_source_list (snd r4)
    = [(4, Fixture.source "A"); (3, Fixture.source "C"); (2, Fixture.source "B")] /\
  map (fun e => YouTubeSource.id (snd e)) (yt_source_list (snd r4)) = ["A"; "C"; "B"].
Proof.
  apply (@C5_recency_order Fixture.extract_video_id MiniJson.dumps MiniJson.loads
           Fixture.extra_fields Fixture.provider
           Run.empty "A" "B" "C" "https://youtu.be/A" "tmpk3x0_q7a"
           (Fixture.record "A") (Fixture.record "B") (Fixture.record "C") 1 2 3 4);
    try reflexivity; try discriminate; try lia.
  simpl. tauto.
Defined.

Lemma C6_round_trip_witness :
  let r := Fixture.record "v1" in
  let from_json := _video_metadata_from_json MiniJson.loads Fixture.extra_fields in
  from_json (_video_metadata_to_json MiniJson.dumps r) = Ok r /\
  from_json (MiniJson.dumps (JObj (("web_url", JStr "https://example.com/v1")
                                     :: YtdlpMetadata.asdict r))) = Ok r.
Proof.
  cbv zeta.
  destruct (@C6_round_trip MiniJson.dumps MiniJson.loads Fixture.extra_fields
              (Fixture.record "v1") eq_refl eq_refl) as [H1 H2].
  split.
  - apply H1. reflexivity.
  - apply (H2 _ (("web_url", JStr "https://example.com/v1")
                   :: YtdlpMetadata.asdict (Fixture.record "v1"))).
    + reflexivity.
    + intros k Hk. cbn [assoc].
      destruct ("web_url" =? k)%string eqn:E; [|reflexivity].
      apply String.eqb_eq in E. subst k. discriminate Hk.
Defined.


Lemma C8_crop_idempotent_witness :
  let s1 := snd (Run.crop_cache 1 Run.three) in
  fst (Run.crop_cache 1 Run.three) = Ok tt /\
  yt_source_list s1 = [(9, Fixture.source "A")] /\
  Run.crop_cache 1 s1 = (Ok tt, s1).
Proof.
  apply (@C8_crop_idempotent Run.three 1). lia.
Defined.

Lemma C9_invalid_reference_witness :
  Run.get_video_metadata "https://example.com/" Run.three
    = (Raise (ValueError_no_video_id "https://example.com/"), Run.three) /\
  is_InvalidReference (ValueError_no_video_id "https://example.com/") = true.
Proof.
  apply (@C9_invalid_reference Fixture.extract_video_id MiniJson.dumps MiniJson.loads
           Fixture.extra_fields Fixture.provider "https://example.com/" Run.three).
  reflexivity.
Defined.

(** After a cleanup that keeps [v1.info], the file is on disk and [v1] is
    not in the index. *)
Example cleanup_keeps_file_drops_entry :
  let s' := snd (remove_stale_files_for_video_id (PyStr "v1") (Some "v1.info") Run.with_legacy) in
  assoc "v1.info" (cache_dir s') = Some (File (Fixture.text_of "v1") 5 true) /\
  assoc "v1.legacy" (cache_dir s') = None /\
  yt_source_list s' = [].
Proof. repeat split. Qed.

(** ** Closed instances of the further properties *)

Lemma X2_refresh_index_reflects_directory_witness :
  let s' := snd (Run.refresh_index Run.one_locked_file) in
  fst (Run.refresh_index Run.one_locked_file) = Ok tt /\
  cache_dir s' = cache_dir Run.one_locked_file /\
  yt_source_list s' = [(7, Fixture.source "good")] /\
  newest_first (yt_source_list s').
Proof.
  destruct (@X2_refresh_index_reflects_directory MiniJson.loads Fixture.extra_fields
              Run.one_locked_file eq_refl) as (H1 & H2 & H3 & _).
  cbv zeta. split; [exact H1|]. split; [exact H2|]. split; [reflexivity | exact H3].
Defined.

Lemma X3_from_json_sound_witness :
  exists raw,
    MiniJson.loads (Fixture.text_of "v1") = Some (JObj raw) /\
    assoc "video_id" raw = Some (JStr "v1") /\
    assoc "url" raw = Some (JStr "https://youtu.be/v1") /\
    assoc "title" raw = Some (JStr "Title of v1").
Proof.
  destruct (@X3_from_json_sound MiniJson.loads Fixture.extra_fields
              (Fixture.text_of "v1") (Fixture.record "v1") eq_refl)
    as (raw & H1 & H2 & H3 & H4 & _).
  exists raw. repeat split; assumption.
Defined.

Lemma X4_from_json_missing_field_witness :
  exists k,
    In k (required Fixture.extra_fields) /\ assoc k Fixture.untitled = None /\
    _video_metadata_from_json MiniJson.loads Fixture.extra_fields
      (MiniJson.dumps (JObj Fixture.untitled)) = Raise (TypeError_missing k).
Proof.
  apply (@X4_from_json_missing_field MiniJson.loads Fixture.extra_fields
           (MiniJson.dumps (JObj Fixture.untitled)) Fixture.untitled).
  - reflexivity.
  - intros k [<-|[<-|[<-|[]]]]; exact I.
  - exists "title". split; [simpl; auto | reflexivity].
Defined.

Lemma X5_prepend_to_index_witness :
  let s' := snd (_prepend_to_index MiniJson.loads Fixture.extra_fields
                   (Fixture.source "v1") Run.with_legacy) in
  yt_source_list s' = [(5, Fixture.source "v1")] /\
  newest_first (yt_source_list s') /\
  length (filter (fun e => (YouTubeSource.id (snd e) =? "v1")%string) (yt_source_list s'))
    = 1%nat.
Proof.
  destruct (@X5_prepend_to_index MiniJson.loads Fixture.extra_fields Run.with_legacy
              (Fixture.source "v1") 5 eq_refl) as (_ & _ & H3 & _ & H5 & _).
  cbv zeta. split; [reflexivity|]. split; [exact H3 | exact H5].
Defined.

Lemma X7_store_unresolvable_witness :
  Run.cache_VideoMetadata Fixture.nameless Run.with_legacy =
  (Raise (ValueError_unresolvable "watch/later" "https://example.com/watch/later"),
   Run.with_legacy).
Proof.
  apply (@X7_store_unresolvable Fixture.extract_video_id MiniJson.dumps MiniJson.loads
           Fixture.extra_fields Run.with_legacy Fixture.nameless).
  reflexivity.
Defined.

Lemma X8_store_postcondition_witness :
  let s' := snd (Run.cache_VideoMetadata (Fixture.record_by_url "v1") Run.with_legacy) in
  fst (Run.cache_VideoMetadata (Fixture.record_by_url "v1") Run.with_legacy)
    = Ok (Fixture.record "v1") /\
  assoc "v1.info" (cache_dir s') = Some (File (Fixture.text_of "v1") 10 true) /\
  yt_source_list s' = [(10, Fixture.source "v1")] /\
  provider_log s' = [].
Proof.
  destruct (@X8_store_postcondition Fixture.extract_video_id MiniJson.dumps MiniJson.loads
              Fixture.extra_fields Run.with_legacy (Fixture.record_by_url "v1") "v1"
              eq_refl eq_refl ltac:(intros mt; discriminate))
    as (H1 & H2 & _ & _ & _ & _ & H7).
  cbv zeta. split; [exact H1|]. split; [exact H2|]. split; [reflexivity | exact H7].
Defined.

Lemma X9_latest_after_store_witness :
  let s' := snd (Run.cache_VideoMetadata (Fixture.record "D") Run.three) in
  Run.get_latest_metadata s' = (Ok (Some (Fixture.record "D")), s').
Proof.
  apply (@X9_latest_after_store Fixture.extract_video_id MiniJson.dumps MiniJson.loads
           Fixture.extra_fields Run.three (Fixture.record "D") "D");
    try reflexivity.
  - intros mt. discriminate.
  - intros e [<-|[<-|[<-|[]]]]; discriminate.
Defined.

Lemma X13_lookup_falls_back_witness :
  let url := "https://youtu.be/zz" in
  get_video_metadata Fixture.extract_video_id MiniJson.dumps MiniJson.loads
    Fixture.extra_fields Fixture.offline url Run.three
  = (Raise (ProviderError "offline"), log_call url Run.three).
Proof.
  cbv zeta.
  destruct (@X13_lookup_falls_back Fixture.extract_video_id MiniJson.dumps MiniJson.loads
              Fixture.extra_fields Fixture.offline Run.three "https://youtu.be/zz" "zz"
              eq_refl (or_introl eq_refl)) as [_ H].
  apply H. reflexivity.
Defined.

Lemma X14_lookup_hit_witness :
  let r := Run.get_video_metadata "https://youtu.be/B" Run.three in
  fst r = Ok (Fixture.record "B") /\
  provider_log (snd r) = [] /\
  yt_source_list (snd r)
    = [(10, Fixture.source "B"); (9, Fixture.source "A"); (7, Fixture.source "C")].
Proof.
  destruct (@X14_lookup_hit Fixture.extract_video_id MiniJson.dumps MiniJson.loads
              Fixture.extra_fields Fixture.provider Run.three "https://youtu.be/B" "B"
              (Fixture.text_of "B") (Fixture.record "B") 8
              eq_refl eq_refl eq_refl eq_refl eq_refl) as (H1 & H2 & _ & H4 & _).
  cbv zeta. split; [exact H1|]. split; [exact H2|].
  etransitivity; [exact H4 | reflexivity].
Defined.

Lemma X15_atomic_write_onto_directory_witness :
  _atomic_write_text "v1.info" "new text" Run.blocked =
  (Raise (OSError "IsADirectoryError"),
   set_dir [("v1.info", Dir 1); ("tmpk3x0_q7a", File "new text" 10 true)] Run.blocked).
Proof.
  apply (@X15_atomic_write_onto_directory Run.blocked "v1.info" "new text" "tmpk3x0_q7a" 1);
    reflexivity.
Defined.

Lemma X16_listed_after_store_witness :
  let s' := snd (Run.cache_VideoMetadata (Fixture.record "D") Run.three) in
  exists urls prompts,
    get_cached_urls s' = (Ok urls, s') /\
    get_cached_prompts s' = (Ok prompts, s') /\
    map PromptChoice.url prompts = urls /\
    hd_error urls = Some "https://youtu.be/D" /\
    In "https://youtu.be/A" urls.
Proof.
  cbv zeta.
  destruct (@X16_listed_after_store Fixture.extract_video_id MiniJson.dumps MiniJson.loads
              Fixture.extra_fields Run.three (Fixture.record "D") "D"
              eq_refl eq_refl ltac:(intros mt; discriminate))
    as (urls & prompts & H1 & H2 & H3 & _ & _ & _ & H7 & H8).
  exists urls, prompts. split; [exact H1|]. split; [exact H2|]. split; [exact H3|].
  split.
  - apply H8. intros e [<-|[<-|[<-|[]]]]; discriminate.
  - apply (H7 (9, Fixture.source "A")); [simpl; auto | discriminate].
Defined.


Lemma X1_init_succeeds_iff_decodable_witness :
  typed_dir MiniJson.loads (cache_dir Run.one_bad_file) /\
  (fst (Run.init Run.one_bad_file) = Ok tt <->
   decodable MiniJson.loads Fixture.extra_fields (cache_dir Run.one_bad_file)) /\
  fst (Run.init Run.one_bad_file) = Raise JSONDecodeError /\
  is_CorruptRecord JSONDecodeError = true.
Proof.
  assert (Hty : typed_dir MiniJson.loads (cache_dir Run.one_bad_file)).
  { intros name c mt [[= <- <- <-]|[[= <- <- <-]|[]]].
    - cbv. intros k [<-|[<-|[<-|[]]]]; exact I.
    - exact I. }
  destruct (@X1_init_succeeds_iff_decodable MiniJson.loads Fixture.extra_fields
              Run.one_bad_file Hty) as (H1 & _ & H3).
  split; [exact Hty|]. split; [exact H1|]. split; [reflexivity|].
  apply H3. reflexivity.
Defined.

Lemma X10_get_latest_metadata_witness :
  typed_dir MiniJson.loads (cache_dir Run.corrupted) /\
  Run.get_latest_metadata Run.corrupted = (Ok None, Run.corrupted) /\
  exists e, _video_metadata_from_json MiniJson.loads Fixture.extra_fields "{not json" = Raise e /\
            is_CorruptRecord e = true.
Proof.
  assert (Hty : typed_dir MiniJson.loads (cache_dir Run.corrupted)).
  { intros name c mt [[= <- <- <-]|[]]. exact I. }
  destruct (@X10_get_latest_metadata MiniJson.loads Fixture.extra_fields
              Run.corrupted Hty) as (o & Hrun & _ & Hnone).
  assert (Ho : o = None).
  { change (Run.get_latest_metadata Run.corrupted = (Ok o, Run.corrupted)) in Hrun.
    vm_compute in Hrun. now injection Hrun as <-. }
  split; [exact Hty|]. split; [reflexivity|].
  exact (Hnone Ho 5 (Fixture.source "v1") [] "{not json" 5 eq_refl eq_refl).
Defined.
